(** * Grocery list: the SQLite accessor (db.ts) and the add/edit form

    A shallow embedding of the storage accessor of the grocery-list
    application (getDatabase, initDatabase, seedSampleData, getAllItems,
    addItem, updateItem, toggleBoughtStatus, deleteItem,
    deleteAllBoughtItems, clearAllItems) and of the save handler of
    AddItemModal.tsx (validateForm, handleSave).  The accessor modelled
    is the variant of db.ts that opens the database lazily through
    getDatabase and seeds sample rows from initDatabase.

    The accessor is asynchronous and catches every exception the SQLite
    driver throws.  It is modelled in a small state-and-exception monad
    over a [World] that holds the platform ([Platform.OS] is "web" or
    not), the module variables [db] and [dbPromise], the persisted table
    [grocery_items], the readings of [Date.now()] and a schedule of
    driver faults.  Calls are awaited one after the other, as the
    presentation layer does.

    Identifiers, flags and timestamps are integers ([Z]).  A quantity is
    a JavaScript Number as [parseInt] can produce it: an integer-valued
    double or an infinity ([JS.Number]). *)

From Stdlib Require Import ZArith List String Ascii Bool Lia.
From Stdlib Require Import Permutation Sorted.
Import ListNotations.

Local Open Scope string_scope.
Local Open Scope list_scope.
Local Open Scope Z_scope.

(* ===================================================================== *)
(** ** JavaScript built-ins used by the form: trim and parseInt           *)
(* ===================================================================== *)

(** Strings are the UTF-8 bytes of the JavaScript string.  [parseInt]
    yields a Number: [None] stands for NaN, [Some x] for the double
    nearest to the integer that the digits spell. *)
Module JS.

(** The Numbers other than NaN that have no fraction: the integer-valued
    doubles, given by their value, and the two infinities. *)
Inductive Number : Type :=
| Finite (z : Z)
| Infinity (negative : bool).

Definition Number_eq_dec (a b : Number) : {a = b} + {a <> b}.
Proof.
  decide equality; [apply Z.eq_dec|apply Bool.bool_dec].
Defined.

(** The Number value of a mathematical integer: the nearest double, a
    tie going to the even significand (53 bits), and an infinity from
    2^1024 on. *)
Definition to_Number (x : Z) : Number :=
  let a := Z.abs x in
  if a <? 2 ^ 53 then Finite x
  else
    let e := Z.log2 a - 52 in
    let q := a / 2 ^ e in
    let r := a mod 2 ^ e in
    let half := 2 ^ (e - 1) in
    let q' := if (half <? r) || ((r =? half) && Z.odd q) then q + 1 else q in
    let m := q' * 2 ^ e in
    if 2 ^ 1024 <=? m then Infinity (x <? 0) else Finite (Z.sgn x * m).

Definition code (c : ascii) : Z := Z.of_N (N_of_ascii c).

(** One leading WhiteSpace or LineTerminator code point, removed:
    U+0009..U+000D, U+0020, U+00A0, U+1680, U+2000..U+200A, U+2028,
    U+2029, U+202F, U+205F, U+3000, U+FEFF. *)
Definition strip_space (s : string) : option string :=
  match s with
  | String c s1 =>
      if ((9 <=? code c) && (code c <=? 13)) || (code c =? 32) then Some s1
      else
        match s1 with
        | String d s2 =>
            if (code c =? 194) && (code d =? 160) then Some s2
            else
              match s2 with
              | String e s3 =>
                  if (code c =? 225) && (code d =? 154) && (code e =? 128)
                  then Some s3
                  else if (code c =? 226) && (code d =? 128)
                          && (((128 <=? code e) && (code e <=? 138))
                              || (code e =? 168) || (code e =? 169)
                              || (code e =? 175))
                  then Some s3
                  else if (code c =? 226) && (code d =? 129) && (code e =? 159)
                  then Some s3
                  else if (code c =? 227) && (code d =? 128) && (code e =? 128)
                  then Some s3
                  else if (code c =? 239) && (code d =? 187) && (code e =? 191)
                  then Some s3
                  else None
              | EmptyString => None
              end
        | EmptyString => None
        end
  | EmptyString => None
  end.

Fixpoint trimStart_fuel (n : nat) (s : string) : string :=
  match n with
  | O => s
  | S n' =>
      match strip_space s with
      | Some s' => trimStart_fuel n' s'
      | None => s
      end
  end.

Definition trimStart (s : string) : string :=
  trimStart_fuel (String.length s) s.

Definition all_space (s : string) : bool :=
  match trimStart s with
  | EmptyString => true
  | String _ _ => false
  end.

Fixpoint trimEnd (s : string) : string :=
  if all_space s then EmptyString
  else
    match s with
    | String c s' => String c (trimEnd s')
    | EmptyString => EmptyString
    end.

(** [String.prototype.trim]. *)
Definition trim (s : string) : string := trimEnd (trimStart s).

(** The value of a character as a digit of the given radix. *)
Definition digit_value (radix : Z) (c : ascii) : option Z :=
  let n := code c in
  let v :=
    if (48 <=? n) && (n <=? 57) then Some (n - 48)
    else if (97 <=? n) && (n <=? 122) then Some (n - 87)
    else if (65 <=? n) && (n <=? 90) then Some (n - 55)
    else None in
  match v with
  | Some d => if d <? radix then Some d else None
  | None => None
  end.

(** The longest prefix of digits, read in the radix; [acc] is [None]
    until a first digit is met. *)
Fixpoint digits (radix : Z) (acc : option Z) (s : string) : option Z :=
  match s with
  | EmptyString => acc
  | String c s' =>
      match digit_value radix c with
      | Some d =>
          digits radix
            (Some (match acc with Some a => a * radix + d | None => d end)) s'
      | None => acc
      end
  end.

(** [parseInt(s)] with no radix argument: leading white space, an
    optional sign, an optional 0x/0X prefix, then digits.  The result
    is the Number value of the integer that the digits spell, all of
    them taken into account. *)
Definition parseInt (s : string) : option Number :=
  let s1 := trimStart s in
  let '(sign, s2) :=
    match s1 with
    | String c r =>
        if code c =? 45 then (-1, r)
        else if code c =? 43 then (1, r)
        else (1, s1)
    | EmptyString => (1, s1)
    end in
  let '(radix, s3) :=
    match s2 with
    | String c (String x r) =>
        if (code c =? 48) && ((code x =? 120) || (code x =? 88))
        then (16, r) else (10, s2)
    | _ => (10, s2)
    end in
  match digits radix None s3 with
  | Some m => Some (to_Number (sign * m))
  | None => None
  end.

(** [v || d] on a Number: NaN and 0 are falsy, an infinity is not. *)
Definition or_else (v : option Number) (d : Number) : Number :=
  match v with
  | None => d
  | Some (Finite n) => if n =? 0 then d else Finite n
  | Some (Infinity negative) => Infinity negative
  end.

(** Truthiness of [s] in [!s]: only the empty string is falsy. *)
Definition truthy_string (s : string) : bool :=
  match s with
  | EmptyString => false
  | String _ _ => true
  end.

End JS.

(** An integer literal stands for the Number of that value. *)
Coercion JS.Finite : Z >-> JS.Number.

(* ===================================================================== *)
(** ** Data model                                                        *)
(* ===================================================================== *)

(** A row of [grocery_items] (interface GroceryItem). *)
Record GroceryItem : Type := mkItem {
  id : Z;
  name : string;
  quantity : JS.Number;
  category : string;
  bought : Z;
  created_at : Z
}.

Definition GroceryItem_eq_dec (a b : GroceryItem) : {a = b} + {a <> b}.
Proof.
  decide equality;
    try apply Z.eq_dec; try apply string_dec; apply JS.Number_eq_dec.
Defined.

(** The table: its rows in rowid order and the AUTOINCREMENT counter
    that SQLite keeps for it in sqlite_sequence. *)
Record Table : Type := mkTable {
  rows : list GroceryItem;
  sqlite_sequence : Z
}.

(** What the driver can throw. *)
Inductive Error : Type :=
| OpenFailed      (* openDatabaseSync / openDatabaseAsync failed *)
| StoreFault      (* any store-level failure of a statement *)
| NoSuchTable     (* the statement names a table that does not exist *)
| DatabaseFull.   (* SQLITE_FULL: the largest rowid is already used *)

(** A promise that has settled. *)
Inductive Promise : Type :=
| Fulfilled                   (* with the database handle *)
| RejectedWith (e : Error).

(** The world an accessor call runs in. *)
Record World : Type := mkWorld {
  web : bool;                         (* Platform.OS === "web" *)
  db : bool;                          (* module variable db is non-null *)
  dbPromise : option Promise;         (* module variable dbPromise; None = null *)
  grocery_items : option Table;       (* the table inside grocery.db *)
  faults : list bool;                 (* one entry per driver call: true = it throws *)
  clock : nat -> Z;                   (* successive readings of Date.now() *)
  reads : nat                         (* readings taken so far *)
}.

Definition set_db (b : bool) (w : World) : World :=
  mkWorld (web w) b (dbPromise w) (grocery_items w) (faults w) (clock w) (reads w).
Definition set_dbPromise (p : option Promise) (w : World) : World :=
  mkWorld (web w) (db w) p (grocery_items w) (faults w) (clock w) (reads w).
Definition set_table (t : option Table) (w : World) : World :=
  mkWorld (web w) (db w) (dbPromise w) t (faults w) (clock w) (reads w).
Definition set_faults (f : list bool) (w : World) : World :=
  mkWorld (web w) (db w) (dbPromise w) (grocery_items w) f (clock w) (reads w).
Definition set_reads (n : nat) (w : World) : World :=
  mkWorld (web w) (db w) (dbPromise w) (grocery_items w) (faults w) (clock w) n.

(** A new process on the same database file: the module variables are
    null again. *)
Definition process_start (w : World) : World :=
  set_dbPromise None (set_db false w).

(* ===================================================================== *)
(** ** The monad of awaited calls                                        *)
(* ===================================================================== *)

Inductive Outcome (A : Type) : Type :=
| Returned (a : A)
| Threw (e : Error).
Arguments Returned {A} a.
Arguments Threw {A} e.

Definition Async (A : Type) : Type := World -> Outcome A * World.

Definition ret {A} (a : A) : Async A := fun w => (Returned a, w).
Definition throw {A} (e : Error) : Async A := fun w => (Threw e, w).

Definition bind {A B} (m : Async A) (k : A -> Async B) : Async B :=
  fun w =>
    match m w with
    | (Returned a, w') => k a w'
    | (Threw e, w') => (Threw e, w')
    end.

(** [try { body } catch (error) { handler }]. *)
Definition try_catch {A} (body : Async A) (handler : Error -> Async A) : Async A :=
  fun w =>
    match body w with
    | (Returned a, w') => (Returned a, w')
    | (Threw e, w') => handler e w'
    end.

Notation "'let*' x ':=' m 'in' k" := (bind m (fun x => k))
  (at level 10, x pattern, m at level 100, k at level 200).

(** [for (const x of l) { await f(x) }]. *)
Fixpoint for_of {A} (l : list A) (f : A -> Async unit) : Async unit :=
  match l with
  | [] => ret tt
  | x :: l' => let* _ := f x in for_of l' f
  end.

(** [Date.now()]. *)
Definition Date_now : Async Z :=
  fun w => (Returned (clock w (reads w)), set_reads (S (reads w)) w).

(* ===================================================================== *)
(** ** The SQLite driver                                                 *)
(* ===================================================================== *)

Module Sqlite.

(** The largest rowid a table can hold. *)
Definition max_rowid : Z := 9223372036854775807.

Definition largest_id (l : list GroceryItem) : Z :=
  fold_right (fun r m => Z.max (id r) m) 0 l.

(** The largest rowid ever used in the table, as AUTOINCREMENT sees it. *)
Definition largest_rowid (t : Table) : Z :=
  Z.max (sqlite_sequence t) (largest_id (rows t)).

(** CREATE TABLE IF NOT EXISTS grocery_items (...). *)
Definition create_table_if_not_exists (d : option Table) : option Table :=
  match d with
  | Some t => Some t
  | None => Some (mkTable [] 0)
  end.

(** The table with one more row, numbered one past the largest rowid. *)
Definition with_new_row (nm : string) (q : JS.Number) (cat : string) (now : Z)
           (t : Table) : Table :=
  mkTable (rows t ++ [mkItem (largest_rowid t + 1) nm q cat 0 now])
          (largest_rowid t + 1).

(** INSERT INTO grocery_items (name, quantity, category, bought,
    created_at) VALUES (?, ?, ?, 0, ?); the result is lastInsertRowId. *)
Definition insert (nm : string) (q : JS.Number) (cat : string) (now : Z) (t : Table)
  : Outcome (Z * Table) :=
  if max_rowid <=? largest_rowid t then Threw DatabaseFull
  else Returned (largest_rowid t + 1, with_new_row nm q cat now t).

(** UPDATE grocery_items SET name = ?, quantity = ?, category = ?
    WHERE id = ?. *)
Definition update_fields (i : Z) (nm : string) (q : JS.Number) (cat : string)
           (t : Table) : Table :=
  mkTable
    (map (fun r => if id r =? i
                   then mkItem (id r) nm q cat (bought r) (created_at r)
                   else r) (rows t))
    (sqlite_sequence t).

(** UPDATE grocery_items SET bought = ? WHERE id = ?. *)
Definition update_bought (i : Z) (b : Z) (t : Table) : Table :=
  mkTable
    (map (fun r => if id r =? i
                   then mkItem (id r) (name r) (quantity r) (category r) b
                               (created_at r)
                   else r) (rows t))
    (sqlite_sequence t).

(** DELETE FROM grocery_items WHERE id = ?. *)
Definition delete_id (i : Z) (t : Table) : Table :=
  mkTable (filter (fun r => negb (id r =? i)) (rows t)) (sqlite_sequence t).

(** DELETE FROM grocery_items WHERE bought = 1. *)
Definition delete_bought (t : Table) : Table :=
  mkTable (filter (fun r => negb (bought r =? 1)) (rows t)) (sqlite_sequence t).

(** DELETE FROM grocery_items. *)
Definition delete_all (t : Table) : Table :=
  mkTable [] (sqlite_sequence t).

(** ORDER BY created_at DESC.  SQLite leaves the order of rows with
    equal keys open; the sort below keeps them in rowid order. *)
Fixpoint insert_desc (r : GroceryItem) (l : list GroceryItem) : list GroceryItem :=
  match l with
  | [] => [r]
  | x :: l' =>
      if created_at r <? created_at x then x :: insert_desc r l'
      else r :: l
  end.

Definition order_by_created_at_desc (l : list GroceryItem) : list GroceryItem :=
  fold_right insert_desc [] l.

(** SELECT * FROM grocery_items ORDER BY created_at DESC. *)
Definition select_all (t : Table) : list GroceryItem :=
  order_by_created_at_desc (rows t).

(** SELECT COUNT( * ) as count FROM grocery_items. *)
Definition select_count (t : Table) : Z := Z.of_nat (List.length (rows t)).

(** Every driver call consumes one entry of the fault schedule; an
    exhausted schedule means no further fault. *)
Definition next_fault : Async bool :=
  fun w =>
    match faults w with
    | [] => (Returned false, w)
    | f :: fs => (Returned f, set_faults fs w)
    end.

(** SQLite.openDatabaseSync("grocery.db") / openDatabaseAsync. *)
Definition openDatabase : Async unit :=
  let* f := next_fault in
  if f then throw OpenFailed else ret tt.

(** A statement against grocery_items: it throws on a fault, and when
    the table does not exist. *)
Definition statement {A} (run : Table -> Outcome (A * Table)) : Async A :=
  let* f := next_fault in
  if f then throw StoreFault
  else fun w =>
         match grocery_items w with
         | None => (Threw NoSuchTable, w)
         | Some t =>
             match run t with
             | Returned (a, t') => (Returned a, set_table (Some t') w)
             | Threw e => (Threw e, w)
             end
         end.

(** database.execAsync(CREATE TABLE IF NOT EXISTS ...). *)
Definition execAsync_create : Async unit :=
  let* f := next_fault in
  if f then throw StoreFault
  else fun w =>
         (Returned tt, set_table (create_table_if_not_exists (grocery_items w)) w).

Definition getFirstAsync_count : Async Z :=
  statement (fun t => Returned (select_count t, t)).

Definition getAllAsync_ordered : Async (list GroceryItem) :=
  statement (fun t => Returned (select_all t, t)).

Definition runAsync_insert (nm : string) (q : JS.Number) (cat : string) (now : Z)
  : Async Z :=
  statement (insert nm q cat now).

Definition runAsync_update (nm : string) (q : JS.Number) (cat : string) (i : Z)
  : Async unit :=
  statement (fun t => Returned (tt, update_fields i nm q cat t)).

Definition runAsync_set_bought (b : Z) (i : Z) : Async unit :=
  statement (fun t => Returned (tt, update_bought i b t)).

Definition runAsync_delete (i : Z) : Async unit :=
  statement (fun t => Returned (tt, delete_id i t)).

Definition runAsync_delete_bought : Async unit :=
  statement (fun t => Returned (tt, delete_bought t)).

Definition runAsync_delete_all : Async unit :=
  statement (fun t => Returned (tt, delete_all t)).

End Sqlite.

(* ===================================================================== *)
(** ** The accessor (db.ts)                                              *)
(* ===================================================================== *)

(** getDatabase: the handle is opened on first use and kept.  A cached
    [dbPromise] has settled by the time a later call is awaited, and is
    what that call returns: the handle, or the error it was rejected
    with, thrown again without any driver call.

    Opening is one driver call.  When it fails, the catch of the inner
    function sets [dbPromise] to null and rethrows.  On the web the
    opening is awaited, so the catch runs after
    [dbPromise = (async () => ...)()] has been assigned and [dbPromise]
    ends null.  Elsewhere openDatabaseSync throws before the inner
    function has reached an await: the catch runs first, and the
    assignment that follows stores the rejected promise. *)
Definition getDatabase : Async unit :=
  fun w =>
    if db w then (Returned tt, w)
    else
      match dbPromise w with
      | Some Fulfilled => (Returned tt, w)
      | Some (RejectedWith e) => (Threw e, w)
      | None =>
          match Sqlite.openDatabase w with
          | (Returned _, w') =>
              (Returned tt, set_dbPromise (Some Fulfilled) (set_db true w'))
          | (Threw e, w') =>
              (Threw e,
               set_dbPromise (if web w then None else Some (RejectedWith e)) w')
          end
      end.

Definition sampleItems : list (string * JS.Number * string) :=
  [ ("Sữa", JS.Finite 2, "Đồ uống");
    ("Trứng", JS.Finite 10, "Thực phẩm tươi sống");
    ("Bánh mì", JS.Finite 1, "Thực phẩm khô") ].

(** The body of the seeding loop: one INSERT, stamped with Date.now(). *)
Definition insert_sample (item : string * JS.Number * string) : Async unit :=
  let '(nm, q, cat) := item in
  let* now := Date_now in
  let* _ := Sqlite.runAsync_insert nm q cat now in
  ret tt.

(** The try block of seedSampleData.  COUNT always yields a row, so
    [result && result.count === 0] is the test on the count. *)
Definition seedSampleData_try : Async unit :=
  let* _ := getDatabase in
  let* count := Sqlite.getFirstAsync_count in
  if count =? 0 then for_of sampleItems insert_sample
  else ret tt.

(** seedSampleData: errors are logged and dropped. *)
Definition seedSampleData : Async unit :=
  try_catch seedSampleData_try (fun _ => ret tt).

Definition initDatabase_try : Async bool :=
  let* _ := getDatabase in
  let* _ := Sqlite.execAsync_create in
  let* _ := seedSampleData in
  ret true.

Definition initDatabase : Async bool :=
  try_catch initDatabase_try (fun _ => ret false).

Definition getAllItems_try : Async (list GroceryItem) :=
  let* _ := getDatabase in
  Sqlite.getAllAsync_ordered.

Definition getAllItems : Async (list GroceryItem) :=
  try_catch getAllItems_try (fun _ => ret []).

(** addItem returns lastInsertRowId, or null ([None]). *)
Definition addItem_try (nm : string) (q : JS.Number) (cat : string)
  : Async (option Z) :=
  let* _ := getDatabase in
  let* now := Date_now in
  let* i := Sqlite.runAsync_insert nm q cat now in
  ret (Some i).

Definition addItem (nm : string) (q : JS.Number) (cat : string) : Async (option Z) :=
  try_catch (addItem_try nm q cat) (fun _ => ret None).

Definition updateItem_try (i : Z) (nm : string) (q : JS.Number) (cat : string)
  : Async bool :=
  let* _ := getDatabase in
  let* _ := Sqlite.runAsync_update nm q cat i in
  ret true.

Definition updateItem (i : Z) (nm : string) (q : JS.Number) (cat : string)
  : Async bool :=
  try_catch (updateItem_try i nm q cat) (fun _ => ret false).

Definition toggleBoughtStatus_try (i : Z) (b : Z) : Async bool :=
  let* _ := getDatabase in
  let* _ := Sqlite.runAsync_set_bought b i in
  ret true.

Definition toggleBoughtStatus (i : Z) (b : Z) : Async bool :=
  try_catch (toggleBoughtStatus_try i b) (fun _ => ret false).

Definition deleteItem_try (i : Z) : Async bool :=
  let* _ := getDatabase in
  let* _ := Sqlite.runAsync_delete i in
  ret true.

Definition deleteItem (i : Z) : Async bool :=
  try_catch (deleteItem_try i) (fun _ => ret false).

Definition deleteAllBoughtItems_try : Async bool :=
  let* _ := getDatabase in
  let* _ := Sqlite.runAsync_delete_bought in
  ret true.

Definition deleteAllBoughtItems : Async bool :=
  try_catch deleteAllBoughtItems_try (fun _ => ret false).

Definition clearAllItems_try : Async bool :=
  let* _ := getDatabase in
  let* _ := Sqlite.runAsync_delete_all in
  ret true.

Definition clearAllItems : Async bool :=
  try_catch clearAllItems_try (fun _ => ret false).

(* ===================================================================== *)
(** ** The add/edit form (AddItemModal.tsx)                              *)
(* ===================================================================== *)

Module AddItemModal.

(** What handleSave ends with. *)
Inductive Saved : Type :=
| Rejected          (* validateForm failed: nothing is called *)
| ItemAdded (i : Z)
| AddFailed
| ItemUpdated
| UpdateFailed
| SaveCrashed.      (* the catch of handleSave *)

(** validateForm: the name must not be empty after trimming. *)
Definition validateForm (nm : string) : bool := JS.truthy_string (JS.trim nm).

(** const quantityNum = parseInt(quantity) || 1 *)
Definition quantityNum (quantity : string) : JS.Number :=
  JS.or_else (JS.parseInt quantity) 1.

(** handleSave, on the form fields and the item being edited, if any.
    The alerts, the form reset and the refresh callbacks that follow an
    outcome are summed up by the [Saved] value. *)
Definition handleSave (nm quantity cat : string) (editItem : option GroceryItem)
  : Async Saved :=
  if negb (validateForm nm) then ret Rejected
  else
    try_catch
      (match editItem with
       | Some it =>
           let* success :=
             updateItem (id it) (JS.trim nm) (quantityNum quantity) (JS.trim cat) in
           ret (if success then ItemUpdated else UpdateFailed)
       | None =>
           let* result :=
             addItem (JS.trim nm) (quantityNum quantity) (JS.trim cat) in
           ret (match result with
                | Some i => if i =? 0 then AddFailed else ItemAdded i
                | None => AddFailed
                end)
       end)
      (fun _ => ret SaveCrashed).

End AddItemModal.

(* ===================================================================== *)
(** ** Reading a run                                                     *)
(* ===================================================================== *)

(** A first process start with no database yet, on the web or not; the
    clock reads 1000, 1001, ... *)
Definition fresh_world_on (on_web : bool) (fs : list bool) : World :=
  mkWorld on_web false None None fs (fun n => 1000 + Z.of_nat n) 0.

(** The same on a phone. *)
Definition fresh_world (fs : list bool) : World := fresh_world_on false fs.

(** The store part of a run. *)
Definition table_after {A} (m : Async A) (w : World) : option Table :=
  grocery_items (snd (m w)).
Definition result_of {A} (m : Async A) (w : World) : Outcome A := fst (m w).
Definition world_after {A} (m : Async A) (w : World) : World := snd (m w).

(* ===================================================================== *)
(** ** Vocabulary of the statements                                      *)
(* ===================================================================== *)

(** The world right after initDatabase on a new device: three samples. *)
Definition seeded_world : World := world_after initDatabase (fresh_world []).

(** The table of [seeded_world]. *)
Definition seeded_table : Table :=
  mkTable
    [ mkItem 1 "Sữa" 2 "Đồ uống" 0 1000;
      mkItem 2 "Trứng" 10 "Thực phẩm tươi sống" 0 1001;
      mkItem 3 "Bánh mì" 1 "Thực phẩm khô" 0 1002 ] 3.

(** An opened database whose table exists and holds no row, as left by
    initDatabase and clearAllItems on a new device. *)
Definition cleared_world : World :=
  world_after clearAllItems (world_after initDatabase (fresh_world [])).

(** A table with one row marked as bought. *)
Definition shopping_world : World :=
  world_after (toggleBoughtStatus 2 1) seeded_world.

(** The scenario of the specification: add("Milk", 2, "Drinks"), list,
    toggleBought(id, 1), list, removeAllBought(), list.  The result holds
    the three listings. *)
Definition scenario
  : Async (list GroceryItem * list GroceryItem * list GroceryItem) :=
  let* added := addItem "Milk" 2 "Drinks" in
  let* listed := getAllItems in
  let* _ := match added with
            | Some i => toggleBoughtStatus i 1
            | None => ret false
            end in
  let* toggled := getAllItems in
  let* _ := deleteAllBoughtItems in
  let* remaining := getAllItems in
  ret (listed, toggled, remaining).

(** toggleBoughtStatus(id, 1) followed by toggleBoughtStatus(id, 0). *)
Definition toggle_on_off (i : Z) : Async (bool * bool) :=
  let* a := toggleBoughtStatus i 1 in
  let* b := toggleBoughtStatus i 0 in
  ret (a, b).

(** The shape of every accessor that runs one writing statement. *)
Definition write_accessor (f : Table -> Table) : Async bool :=
  try_catch
    (let* _ := getDatabase in
     let* _ := Sqlite.statement (fun t => Returned (tt, f t)) in
     ret true)
    (fun _ => ret false).

(** The table an initialisation starts seeding from. *)
Definition created (d : option Table) : Table :=
  match d with
  | Some t => t
  | None => mkTable [] 0
  end.

(** The three sample rows, numbered after rowid [l] and stamped with the
    clock readings [n], [n+1], [n+2]. *)
Definition sample_rows (l : Z) (c : nat -> Z) (n : nat) : list GroceryItem :=
  [ mkItem (l + 1) "Sữa" 2 "Đồ uống" 0 (c n);
    mkItem (l + 2) "Trứng" 10 "Thực phẩm tươi sống" 0 (c (S n));
    mkItem (l + 3) "Bánh mì" 1 "Thực phẩm khô" 0 (c (S (S n))) ].

(** Newest first. *)
Definition newest_first (a b : GroceryItem) : Prop := created_at b <= created_at a.

(** The database is not open and [dbPromise] holds the rejected promise
    of an opening that failed. *)
Definition open_failed (w : World) : bool :=
  match db w, dbPromise w with
  | false, Some (RejectedWith _) => true
  | _, _ => false
  end.

(** No driver call will fail: no fault is pending and no failed opening
    is remembered. *)
Definition no_fault (w : World) : Prop :=
  faults w = [] /\ open_failed w = false.

(** [calm_run m w a d n]: run in [w], [m] returns [a], leaves the table
    [d], has taken [n] clock readings in all, and no driver call will
    fail afterwards either. *)
Definition calm_run {A} (m : Async A) (w : World) (a : A)
           (d : option Table) (n : nat) : Prop :=
  result_of m w = Returned a /\
  grocery_items (world_after m w) = d /\
  no_fault (world_after m w) /\
  clock (world_after m w) = clock w /\
  reads (world_after m w) = n.

(** [caught body accessor sentinel w]: run in [w], the accessor returns
    what its try block returns, returns the sentinel when the try block
    throws, and never throws itself. *)
Definition caught {A} (body accessor : Async A) (sentinel : A) (w : World) : Prop :=
  (forall a, result_of body w = Returned a -> result_of accessor w = Returned a) /\
  (forall e, result_of body w = Threw e -> result_of accessor w = Returned sentinel) /\
  (exists a, result_of accessor w = Returned a).

(* ===================================================================== *)
(** ** Sessions of accessor calls                                        *)
(* ===================================================================== *)

(** One call made by the presentation layer. *)
Inductive Call : Type :=
| CallInit
| CallSeed
| CallList
| CallAdd (nm : string) (q : JS.Number) (cat : string)
| CallUpdate (i : Z) (nm : string) (q : JS.Number) (cat : string)
| CallToggle (i b : Z)
| CallDelete (i : Z)
| CallDeleteBought
| CallClear
| CallSave (nm quantity cat : string) (editItem : option GroceryItem).

(** [await f(...)] with the result left unused. *)
Definition discard {A} (m : Async A) : Async unit :=
  let* _ := m in ret tt.

Definition call (c : Call) : Async unit :=
  match c with
  | CallInit => discard initDatabase
  | CallSeed => seedSampleData
  | CallList => discard getAllItems
  | CallAdd nm q cat => discard (addItem nm q cat)
  | CallUpdate i nm q cat => discard (updateItem i nm q cat)
  | CallToggle i b => discard (toggleBoughtStatus i b)
  | CallDelete i => discard (deleteItem i)
  | CallDeleteBought => discard deleteAllBoughtItems
  | CallClear => discard clearAllItems
  | CallSave nm quantity cat editItem =>
      discard (AddItemModal.handleSave nm quantity cat editItem)
  end.

(** Calls awaited one after the other. *)
Definition session (cs : list Call) : Async unit := for_of cs call.

(** The identifiers of a table are pairwise distinct, positive and not
    beyond the AUTOINCREMENT counter. *)
Definition well_formed (d : option Table) : Prop :=
  match d with
  | None => True
  | Some t =>
      NoDup (map id (rows t)) /\
      Forall (fun r => 0 < id r <= sqlite_sequence t) (rows t)
  end.

(** The AUTOINCREMENT counter of a database, 0 while there is no table. *)
Definition watermark (d : option Table) : Z :=
  match d with
  | None => 0
  | Some t => sqlite_sequence t
  end.

(** [keeps P m]: whatever the world, a run of [m] keeps the property [P]
    of the world. *)
Definition keeps {A} (P : World -> Prop) (m : Async A) : Prop :=
  forall w, P w -> P (world_after m w).

(** The handle variables agree: both null, or both set with the promise
    fulfilled. *)
Definition handle_settled (w : World) : Prop :=
  dbPromise w = if db w then Some Fulfilled else None.

(** The states of the handle variables between awaited calls: they
    agree, or, elsewhere than on the web, [db] is null and [dbPromise]
    holds the promise rejected by a failed opening. *)
Definition reachable_state (on_web d : bool) (p : option Promise) : Prop :=
  p = (if d then Some Fulfilled else None) \/
  (on_web = false /\ d = false /\ p = Some (RejectedWith OpenFailed)).

Definition handle_reachable (w : World) : Prop :=
  reachable_state (web w) (db w) (dbPromise w).

(** The world as a failed opening leaves it: the fault is used up, and
    elsewhere than on the web [dbPromise] keeps the rejected promise. *)
Definition after_failed_open (fs : list bool) (w : World) : World :=
  set_dbPromise (if web w then None else Some (RejectedWith OpenFailed))
                (set_faults fs w).

(** A process start: the module variables are null again. *)
Definition restart : Async unit :=
  fun w => (Returned tt, process_start w).

(** The sample rows may be written. *)
Definition samples_ok (ok : string -> JS.Number -> string -> Prop) : Prop :=
  forall nm q cat, In (nm, q, cat) sampleItems -> ok nm q cat.

(** The values a call writes into name, quantity and category are [ok]. *)
Definition call_ok (ok : string -> JS.Number -> string -> Prop) (c : Call) : Prop :=
  match c with
  | CallInit | CallSeed => samples_ok ok
  | CallAdd nm q cat => ok nm q cat
  | CallUpdate _ nm q cat => ok nm q cat
  | CallSave nm quantity cat _ =>
      AddItemModal.validateForm nm = true ->
      ok (JS.trim nm) (AddItemModal.quantityNum quantity) (JS.trim cat)
  | _ => True
  end.

(** clearAllItems, a process start, initDatabase. *)
Definition clear_and_start_again : Async bool :=
  let* _ := clearAllItems in
  let* _ := restart in
  initDatabase.

(** addItem followed by getAllItems. *)
Definition add_then_list (nm : string) (q : JS.Number) (cat : string)
  : Async (list GroceryItem) :=
  let* _ := addItem nm q cat in getAllItems.

(** A string made of white space only, read off [JS.strip_space]. *)
Inductive Spaces : string -> Prop :=
| Spaces_empty : Spaces EmptyString
| Spaces_strip s s' : JS.strip_space s = Some s' -> Spaces s' -> Spaces s.

(** What the form lets into a row: a name that is trimmed and not empty,
    a quantity that is not 0, a trimmed category. *)
Definition from_form (nm : string) (q : JS.Number) (cat : string) : Prop :=
  JS.trim nm = nm /\ nm <> EmptyString /\ q <> 0 /\ JS.trim cat = cat.

(** Every row of the table could have come from the form. *)
Definition form_clean (d : option Table) : Prop :=
  match d with
  | None => True
  | Some t => Forall (fun r => from_form (name r) (quantity r) (category r)) (rows t)
  end.

(** The calls the screens make: addItem and updateItem only through the
    save handler of the form. *)
Definition screen_call (c : Call) : Prop :=
  match c with
  | CallAdd _ _ _ | CallUpdate _ _ _ _ => False
  | _ => True
  end.

(* ===================================================================== *)
(** ** The fields of the form (AddItemModal.tsx)                         *)
(* ===================================================================== *)

(** The character of a decimal digit. *)
Definition digit_char (d : Z) : ascii := ascii_of_N (Z.to_N (48 + d)).

(** The decimal digits of a natural number, most significant first, in
    front of [acc]. *)
Fixpoint decimal_fuel (fuel : nat) (n : Z) (acc : string) : string :=
  match fuel with
  | O => acc
  | S fuel' =>
      let acc' := String (digit_char (n mod 10)) acc in
      if n <? 10 then acc' else decimal_fuel fuel' (n / 10) acc'
  end.

Definition decimal (n : Z) : string :=
  decimal_fuel (S (Z.to_nat (Z.log2 n))) n EmptyString.

(** The same digits in front of [acc]. *)
Definition decimal_before (n : Z) (acc : string) : string :=
  decimal_fuel (S (Z.to_nat (Z.log2 n))) n acc.

(** [j] zeros. *)
Fixpoint zeros (j : nat) : string :=
  match j with
  | O => EmptyString
  | S j' => String "0" (zeros j')
  end.

(** The number of decimal digits of a natural number. *)
Definition digit_count (a : Z) : nat := String.length (decimal a).

(** [s * 10^j] is read as the double of value [a]. *)
Definition stands_for (a s : Z) (j : nat) : bool :=
  match JS.to_Number (s * 10 ^ Z.of_nat j) with
  | JS.Finite v => v =? a
  | JS.Infinity _ => false
  end.

(** The digits [s] and the scale [j] that Number::toString prints for
    the double of value [a]: as few digits as possible such that
    [s * 10^j] is still read as [a].  The scales are tried from the
    coarsest down; at a scale, the multiples of [10^j] next to [a] are
    the candidates, the nearer one first and the even one on a tie. *)
Fixpoint shortest (j : nat) (a : Z) : Z * nat :=
  match j with
  | O => (a, O)
  | S j' =>
      let p := 10 ^ Z.of_nat j in
      let lo := a / p in
      let hi := lo + 1 in
      let lo_ok := (0 <? lo) && stands_for a lo j in
      let hi_ok := stands_for a hi j in
      let below := a - lo * p in
      let above := hi * p - a in
      let lo_nearer := (below <? above) || ((below =? above) && Z.even lo) in
      if lo_ok && (negb hi_ok || lo_nearer) then (lo, j)
      else if hi_ok then (hi, j)
      else shortest j' a
  end.

(** The text of a positive integer-valued double: the digits followed
    by zeros below 10^21, exponent notation from there on. *)
Definition digits_toString (a : Z) : string :=
  let '(s, j) := shortest (digit_count a) a in
  let ds := decimal s in
  if s * 10 ^ Z.of_nat j <? 10 ^ 21 then decimal_before s (zeros j)
  else
    let e := decimal (Z.of_nat (String.length ds + j) - 1) in
    match ds with
    | String c EmptyString => String c ("e+" ++ e)%string
    | String c r => String c ("." ++ r ++ "e+" ++ e)%string
    | EmptyString => EmptyString
    end.

(** [x.toString()] for a Number with no fraction. *)
Definition Number_toString (x : JS.Number) : string :=
  match x with
  | JS.Finite n =>
      if n <? 0 then String "-" (digits_toString (- n)) else digits_toString n
  | JS.Infinity negative => if negative then "-Infinity" else "Infinity"
  end.

(** [s || d] on a string. *)
Definition or_string (s d : string) : string :=
  if JS.truthy_string s then s else d.

(** The three text fields of the form. *)
Record Fields : Type := mkFields {
  field_name : string;
  field_quantity : string;
  field_category : string
}.

(** resetForm. *)
Definition resetForm : Fields := mkFields "" "1" "".

(** The effect that fills the form when it opens: the fields of the
    item being edited, or the reset form. *)
Definition populate (editItem : option GroceryItem) : Fields :=
  match editItem with
  | Some it =>
      mkFields (name it) (Number_toString (quantity it)) (or_string (category it) "")
  | None => resetForm
  end.

(** handleSave on the fields as they stand. *)
Definition save (f : Fields) (editItem : option GroceryItem)
  : Async AddItemModal.Saved :=
  AddItemModal.handleSave (field_name f) (field_quantity f) (field_category f)
                          editItem.

(** A string of decimal digits. *)
Fixpoint all_digits (s : string) : bool :=
  match s with
  | EmptyString => true
  | String c s' => (48 <=? JS.code c) && (JS.code c <=? 57) && all_digits s'
  end.

(* ===================================================================== *)
(** ** The variant of db.ts with the database opened at load time        *)
(* ===================================================================== *)

(** This variant opens the database once, when the module is loaded
    ([const db = SQLite.openDatabaseSync("grocery.db")]), calls the
    driver on that handle directly and has no seeding. *)
Module Eager.

Definition initDatabase : Async bool :=
  try_catch (let* _ := Sqlite.execAsync_create in ret true) (fun _ => ret false).

Definition getAllItems : Async (list GroceryItem) :=
  try_catch Sqlite.getAllAsync_ordered (fun _ => ret []).

Definition addItem (nm : string) (q : JS.Number) (cat : string) : Async (option Z) :=
  try_catch
    (let* now := Date_now in
     let* i := Sqlite.runAsync_insert nm q cat now in
     ret (Some i))
    (fun _ => ret None).

Definition updateItem (i : Z) (nm : string) (q : JS.Number) (cat : string)
  : Async bool :=
  try_catch (let* _ := Sqlite.runAsync_update nm q cat i in ret true)
            (fun _ => ret false).

Definition toggleBoughtStatus (i : Z) (b : Z) : Async bool :=
  try_catch (let* _ := Sqlite.runAsync_set_bought b i in ret true)
            (fun _ => ret false).

Definition deleteItem (i : Z) : Async bool :=
  try_catch (let* _ := Sqlite.runAsync_delete i in ret true) (fun _ => ret false).

Definition deleteAllBoughtItems : Async bool :=
  try_catch (let* _ := Sqlite.runAsync_delete_bought in ret true)
            (fun _ => ret false).

Definition clearAllItems : Async bool :=
  try_catch (let* _ := Sqlite.runAsync_delete_all in ret true)
            (fun _ => ret false).

(** The scenario of the specification on this variant. *)
Definition scenario
  : Async (list GroceryItem * list GroceryItem * list GroceryItem) :=
  let* added := addItem "Milk" 2 "Drinks" in
  let* listed := getAllItems in
  let* _ := match added with
            | Some i => toggleBoughtStatus i 1
            | None => ret false
            end in
  let* toggled := getAllItems in
  let* _ := deleteAllBoughtItems in
  let* remaining := getAllItems in
  ret (listed, toggled, remaining).

End Eager.

(* ===================================================================== *)
(** ** The variant of db.ts with a synchronous getDatabase               *)
(* ===================================================================== *)

(** This variant keeps [let db = null], opens it in a synchronous
    getDatabase that only initDatabase calls, and lets every other
    function call the driver on the variable [db] itself. *)
Module Sync.

(** getDatabase: [if (!db) db = SQLite.openDatabaseSync(...); return db]. *)
Definition getDatabase : Async unit :=
  fun w =>
    if db w then (Returned tt, w)
    else
      match Sqlite.openDatabase w with
      | (Returned _, w') => (Returned tt, set_db true w')
      | (Threw e, w') => (Threw e, w')
      end.

(** A method call on the variable [db].  On null it throws a TypeError
    before the driver is reached; no catch of the file looks at the
    error it gets, and the TypeError is represented by [OpenFailed]. *)
Definition on_db {A} (m : Async A) : Async A :=
  fun w => if db w then m w else (Threw OpenFailed, w).

(** [db.runAsync(sql, [..., Date.now()])]: the method is looked up on
    [db] before the arguments are evaluated. *)
Definition runAsync_insert_now (nm : string) (q : JS.Number) (cat : string) : Async Z :=
  on_db (let* now := Date_now in Sqlite.runAsync_insert nm q cat now).

Definition insert_sample (item : string * JS.Number * string) : Async unit :=
  let '(nm, q, cat) := item in
  let* _ := runAsync_insert_now nm q cat in
  ret tt.

Definition seedSampleData : Async unit :=
  try_catch
    (let* count := on_db Sqlite.getFirstAsync_count in
     if count =? 0 then for_of sampleItems insert_sample else ret tt)
    (fun _ => ret tt).

Definition initDatabase : Async bool :=
  try_catch
    (let* _ := getDatabase in
     let* _ := Sqlite.execAsync_create in
     let* _ := seedSampleData in
     ret true)
    (fun _ => ret false).

Definition getAllItems : Async (list GroceryItem) :=
  try_catch (on_db Sqlite.getAllAsync_ordered) (fun _ => ret []).

Definition addItem (nm : string) (q : JS.Number) (cat : string) : Async (option Z) :=
  try_catch
    (let* i := runAsync_insert_now nm q cat in
     ret (Some i))
    (fun _ => ret None).

Definition updateItem (i : Z) (nm : string) (q : JS.Number) (cat : string)
  : Async bool :=
  try_catch (let* _ := on_db (Sqlite.runAsync_update nm q cat i) in ret true)
            (fun _ => ret false).

Definition toggleBoughtStatus (i : Z) (b : Z) : Async bool :=
  try_catch (let* _ := on_db (Sqlite.runAsync_set_bought b i) in ret true)
            (fun _ => ret false).

Definition deleteItem (i : Z) : Async bool :=
  try_catch (let* _ := on_db (Sqlite.runAsync_delete i) in ret true)
            (fun _ => ret false).

Definition deleteAllBoughtItems : Async bool :=
  try_catch (let* _ := on_db Sqlite.runAsync_delete_bought in ret true)
            (fun _ => ret false).

Definition clearAllItems : Async bool :=
  try_catch (let* _ := on_db Sqlite.runAsync_delete_all in ret true)
            (fun _ => ret false).

End Sync.

(* ===================================================================== *)
(** ** The list screen (GroceryList.tsx)                                 *)
(* ===================================================================== *)

(** loadItems, from the items shown so far to the items shown next:
    [setItems(data)] with the result of getAllItems; the catch would
    leave the items as they are. *)
Definition loadItems (items : list GroceryItem) : Async (list GroceryItem) :=
  try_catch (let* data := getAllItems in ret data) (fun _ => ret items).

(** One awaited call after another. *)
Definition and_then {A B} (m : Async A) (k : Async B) : Async B :=
  let* _ := m in k.

(** A session with faults: the second call meets a store fault. *)
Definition busy_session : list Call :=
  [ CallInit; CallAdd "Milk" 2 "Drinks"; CallDelete 2;
    CallSave " Tea " "x" "" None; CallToggle 4 1; CallDeleteBought; CallList ].

(** Calls as the screens make them. *)
Definition screen_session : list Call :=
  [ CallInit; CallSave "  Milk " "abc" " Drinks" None; CallToggle 4 1;
    CallSave "Tea" "-3" "" (Some (mkItem 1 "Sữa" 2 "Đồ uống" 0 1000)); CallList ].

(** What a property of the world has to satisfy to be kept by the
    accessor: each driver call the accessor makes keeps it, the writes
    of a name, quantity and category for the values that are [ok]. *)
Record driver_invariant (ok : string -> JS.Number -> string -> Prop) (P : World -> Prop)
  : Prop := {
  di_now : keeps P Date_now;
  di_getDatabase : keeps P getDatabase;
  di_count : keeps P Sqlite.getFirstAsync_count;
  di_select : keeps P Sqlite.getAllAsync_ordered;
  di_insert : forall nm q cat now,
      ok nm q cat -> keeps P (Sqlite.runAsync_insert nm q cat now);
  di_update : forall nm q cat i,
      ok nm q cat -> keeps P (Sqlite.runAsync_update nm q cat i);
  di_bought : forall b i, keeps P (Sqlite.runAsync_set_bought b i);
  di_delete : forall i, keeps P (Sqlite.runAsync_delete i);
  di_delete_bought : keeps P Sqlite.runAsync_delete_bought;
  di_delete_all : keeps P Sqlite.runAsync_delete_all
}.

(** What a property of the table has to satisfy to be kept by every
    call but initDatabase: each writing statement keeps it, an INSERT and
    an UPDATE for the values that are [ok]. *)
Record statement_invariant (ok : string -> JS.Number -> string -> Prop)
       (I : option Table -> Prop) : Prop := {
  inv_insert : forall nm q cat now t,
      ok nm q cat ->
      I (Some t) -> Sqlite.largest_rowid t < Sqlite.max_rowid ->
      I (Some (Sqlite.with_new_row nm q cat now t));
  inv_update : forall i nm q cat t,
      ok nm q cat ->
      I (Some t) -> I (Some (Sqlite.update_fields i nm q cat t));
  inv_bought : forall i b t, I (Some t) -> I (Some (Sqlite.update_bought i b t));
  inv_delete : forall i t, I (Some t) -> I (Some (Sqlite.delete_id i t));
  inv_delete_bought : forall t, I (Some t) -> I (Some (Sqlite.delete_bought t));
  inv_delete_all : forall t, I (Some t) -> I (Some (Sqlite.delete_all t))
}.

(* ===================================================================== *)
(** ** Proof tactics                                                     *)
(* ===================================================================== *)

Ltac unfold_driver :=
  unfold Sqlite.runAsync_insert, Sqlite.runAsync_update,
    Sqlite.runAsync_set_bought, Sqlite.runAsync_delete,
    Sqlite.runAsync_delete_bought, Sqlite.runAsync_delete_all,
    Sqlite.getAllAsync_ordered, Sqlite.getFirstAsync_count,
    Sqlite.execAsync_create, Sqlite.statement, Sqlite.openDatabase,
    Sqlite.next_fault, Date_now, try_catch, bind, ret, throw,
    set_db, set_dbPromise, set_table, set_faults, set_reads in *.

Ltac unfold_accessor :=
  unfold result_of, table_after, world_after,
    initDatabase, initDatabase_try, seedSampleData, seedSampleData_try,
    getAllItems, getAllItems_try, addItem, addItem_try,
    updateItem, updateItem_try, toggleBoughtStatus, toggleBoughtStatus_try,
    deleteItem, deleteItem_try, deleteAllBoughtItems, deleteAllBoughtItems_try,
    clearAllItems, clearAllItems_try, getDatabase in *;
  unfold_driver.

(** Splits a world into its fields, the handle flags into their cases. *)
Ltac world_cases w :=
  let pw := fresh "pw" in
  let d := fresh "d" in
  let p := fresh "p" in
  let e := fresh "e" in
  let t := fresh "t" in
  let f := fresh "f" in
  let c := fresh "c" in
  let n := fresh "n" in
  destruct w as [pw d p t f c n]; destruct pw, d, p as [[|e]|].

(** Takes the hypotheses [no_fault w] apart. *)
Ltac no_fault_parts :=
  repeat match goal with
         | H : no_fault _ |- _ => destruct H as [? ?]
         end.

(* ===================================================================== *)
(** ** The built-ins and a first run, evaluated                          *)
(* ===================================================================== *)

Example parseInt_examples :
  JS.parseInt "2" = Some (JS.Finite 2) /\
  JS.parseInt "  12abc" = Some (JS.Finite 12) /\
  JS.parseInt "" = None /\ JS.parseInt "abc" = None /\
  JS.parseInt "0" = Some (JS.Finite 0) /\
  JS.parseInt "-5" = Some (JS.Finite (-5)) /\
  JS.parseInt "0x1F" = Some (JS.Finite 31) /\
  JS.parseInt "2.9" = Some (JS.Finite 2) /\
  JS.parseInt "-" = None /\ JS.parseInt "+7" = Some (JS.Finite 7) /\
  JS.parseInt "Infinity" = None /\ JS.parseInt "1e+21" = Some (JS.Finite 1).
Proof. repeat split; reflexivity. Qed.

(** Beyond 2^53 the digits are rounded to the nearest double, a tie
    going to the even significand; 2^1024 and more is an infinity. *)
Example to_Number_examples :
  JS.to_Number 9007199254740991 = JS.Finite 9007199254740991 /\
  JS.to_Number 9007199254740993 = JS.Finite 9007199254740992 /\
  JS.to_Number 9007199254740995 = JS.Finite 9007199254740996 /\
  JS.to_Number (-9007199254740993) = JS.Finite (-9007199254740992) /\
  JS.to_Number 123456789012345678901234567890
    = JS.Finite 123456789012345677877719597056 /\
  JS.to_Number (10 ^ 23) = JS.Finite 99999999999999991611392 /\
  JS.to_Number (2 ^ 1024 - 2 ^ 970 - 1) = JS.Finite (2 ^ 1024 - 2 ^ 971) /\
  JS.to_Number (2 ^ 1024 - 2 ^ 970) = JS.Infinity false /\
  JS.to_Number (- 10 ^ 400) = JS.Infinity true /\
  JS.parseInt "9007199254740993" = Some (JS.Finite 9007199254740992).
Proof. repeat split; vm_compute; reflexivity. Qed.

Example trim_examples :
  JS.trim "  Milk  " = "Milk" /\ JS.trim "   " = "" /\
  JS.trim " Bánh mì " = "Bánh mì" /\ JS.trim "" = "".
Proof. repeat split; reflexivity. Qed.

(** U+00A0 before and U+2003 after the name are white space as well;
    U+200B (zero width space) is not. *)
Example trim_unicode_space :
  JS.trim (String (ascii_of_nat 194) (String (ascii_of_nat 160)
             ("Milk" ++ String (ascii_of_nat 226) (String (ascii_of_nat 128)
                          (String (ascii_of_nat 131) ""))))) = "Milk" /\
  AddItemModal.validateForm
    (String (ascii_of_nat 226) (String (ascii_of_nat 128)
       (String (ascii_of_nat 131) ""))) = false /\
  AddItemModal.validateForm
    (String (ascii_of_nat 226) (String (ascii_of_nat 128)
       (String (ascii_of_nat 139) ""))) = true.
Proof. repeat split; reflexivity. Qed.

Example initDatabase_fresh :
  initDatabase (fresh_world []) =
  (Returned true,
   mkWorld false true (Some Fulfilled)
     (Some (mkTable [ mkItem 1 "Sữa" 2 "Đồ uống" 0 1000;
                      mkItem 2 "Trứng" 10 "Thực phẩm tươi sống" 0 1001;
                      mkItem 3 "Bánh mì" 1 "Thực phẩm khô" 0 1002 ] 3))
     [] (clock (fresh_world [])) 3).
Proof. reflexivity. Qed.

(* ===================================================================== *)
(** ** Basic facts about the driver                                      *)
(* ===================================================================== *)

Lemma largest_id_upper (l : list GroceryItem) (r : GroceryItem) :
  In r l -> id r <= Sqlite.largest_id l.
Proof.
  induction l as [|x l IH]; simpl; [tauto|].
  intros [->|H]; [lia|]. specialize (IH H). lia.
Qed.

Lemma largest_rowid_upper (t : Table) (r : GroceryItem) :
  In r (rows t) -> id r <= Sqlite.largest_rowid t.
Proof.
  intros H. apply largest_id_upper in H. unfold Sqlite.largest_rowid. lia.
Qed.

(** What one INSERT does to a table that has room. *)
Lemma insert_room nm q cat now t :
  Sqlite.largest_rowid t < Sqlite.max_rowid ->
  Sqlite.insert nm q cat now t =
  Returned (Sqlite.largest_rowid t + 1, Sqlite.with_new_row nm q cat now t).
Proof.
  intros H. unfold Sqlite.insert.
  destruct (Sqlite.max_rowid <=? Sqlite.largest_rowid t) eqn:E; [|reflexivity].
  apply Z.leb_le in E. lia.
Qed.

Lemma insert_full nm q cat now t :
  Sqlite.max_rowid <= Sqlite.largest_rowid t ->
  Sqlite.insert nm q cat now t = Threw DatabaseFull.
Proof.
  intros H. unfold Sqlite.insert.
  destruct (Sqlite.max_rowid <=? Sqlite.largest_rowid t) eqn:E; [reflexivity|].
  apply Z.leb_gt in E. lia.
Qed.

(** addItem, run: either the INSERT went through, or nothing changed. *)
Lemma addItem_cases nm q cat w :
  (exists t,
      grocery_items w = Some t /\
      Sqlite.largest_rowid t < Sqlite.max_rowid /\
      result_of (addItem nm q cat) w = Returned (Some (Sqlite.largest_rowid t + 1)) /\
      table_after (addItem nm q cat) w =
        Some (Sqlite.with_new_row nm q cat (clock w (reads w)) t))
  \/ (result_of (addItem nm q cat) w = Returned None /\
      table_after (addItem nm q cat) w = grocery_items w).
Proof.
  destruct (grocery_items w) as [t|] eqn:Et.
  - destruct (Z_lt_le_dec (Sqlite.largest_rowid t) Sqlite.max_rowid) as [Hr|Hr].
    + destruct (faults w) as [|[|] [|[|] fs]] eqn:Ef;
        world_cases w; simpl in Et, Ef; subst; unfold_accessor; simpl;
        rewrite ?(insert_room _ _ _ _ _ Hr); simpl;
        solve [ right; split; reflexivity
              | left; eexists; repeat split; try reflexivity; assumption ].
    + right.
      destruct (faults w) as [|[|] [|[|] fs]] eqn:Ef;
        world_cases w; simpl in Et, Ef; subst; unfold_accessor; simpl;
        rewrite ?(insert_full _ _ _ _ _ Hr); simpl; split; reflexivity.
  - right.
    destruct (faults w) as [|[|] [|[|] fs]] eqn:Ef;
      world_cases w; simpl in Et, Ef; subst; unfold_accessor; simpl;
      split; reflexivity.
Qed.

(* ===================================================================== *)
(** ** Runs without a store fault                                        *)
(* ===================================================================== *)

Lemma calm_run_bind {A B} (m : Async A) (k : A -> Async B) w a d n b d' n' :
  calm_run m w a d n ->
  (forall w1, no_fault w1 -> grocery_items w1 = d -> clock w1 = clock w ->
              reads w1 = n -> calm_run (k a) w1 b d' n') ->
  calm_run (bind m k) w b d' n'.
Proof.
  unfold calm_run, result_of, world_after, bind.
  destruct (m w) as [[x|e] w1]; simpl; intros (Hr & Hd & Hf & Hc & Hn) Hk;
    [|discriminate].
  injection Hr as ->. rewrite <- Hc. apply Hk; assumption.
Qed.

Lemma write_accessor_cases (f : Table -> Table) (w : World) :
  (exists t, grocery_items w = Some t /\
             result_of (write_accessor f) w = Returned true /\
             table_after (write_accessor f) w = Some (f t))
  \/ (result_of (write_accessor f) w = Returned false /\
      table_after (write_accessor f) w = grocery_items w).
Proof.
  destruct (grocery_items w) as [t|] eqn:Et;
    destruct (faults w) as [|[|] [|[|] fs]] eqn:Ef;
    world_cases w; simpl in Et, Ef; subst;
    unfold write_accessor; unfold_accessor; simpl;
    solve [ right; split; reflexivity
          | left; eexists; repeat split; reflexivity ].
Qed.

Lemma write_accessor_calm (f : Table -> Table) (w : World) (t : Table) :
  no_fault w -> grocery_items w = Some t ->
  calm_run (write_accessor f) w true (Some (f t)) (reads w).
Proof.
  intros [Ef Eo] Et. world_cases w; simpl in Et, Ef; subst;
    try discriminate Eo;
    unfold calm_run, write_accessor; unfold_accessor; simpl;
    repeat split; reflexivity.
Qed.

(** Once an opening has failed elsewhere than on the web, a write
    accessor returns false without calling the driver. *)
Lemma write_accessor_open_failed (f : Table -> Table) (w : World) :
  open_failed w = true -> write_accessor f w = (Returned false, w).
Proof.
  intros Eo. world_cases w; try discriminate Eo; reflexivity.
Qed.

(** The same for the other accessors: the sentinel, and the world is
    left as it is. *)
Lemma open_failed_sentinels (w : World) :
  open_failed w = true ->
  getAllItems w = (Returned [], w) /\
  (forall nm q cat, addItem nm q cat w = (Returned None, w)) /\
  initDatabase w = (Returned false, w) /\
  seedSampleData w = (Returned tt, w).
Proof.
  intros Eo. world_cases w; try discriminate Eo; repeat split; reflexivity.
Qed.

(** A write accessor that reports success has run its statement. *)
Lemma write_accessor_true (f : Table -> Table) (w : World) :
  result_of (write_accessor f) w = Returned true ->
  exists t, grocery_items w = Some t /\
            table_after (write_accessor f) w = Some (f t).
Proof.
  intros H. destruct (write_accessor_cases f w) as [(t & Et & _ & Ht)|[Hr _]].
  - exists t. split; assumption.
  - rewrite Hr in H. discriminate.
Qed.

Lemma getAllItems_calm (w : World) (t : Table) :
  no_fault w -> grocery_items w = Some t ->
  calm_run getAllItems_try w (Sqlite.select_all t) (Some t) (reads w) /\
  calm_run getAllItems w (Sqlite.select_all t) (Some t) (reads w).
Proof.
  intros [Ef Eo] Et. world_cases w; simpl in Et, Ef; subst;
    try discriminate Eo;
    unfold calm_run; unfold_accessor; simpl; repeat split; reflexivity.
Qed.

Lemma addItem_calm nm q cat (w : World) (t : Table) :
  no_fault w -> grocery_items w = Some t ->
  Sqlite.largest_rowid t < Sqlite.max_rowid ->
  calm_run (addItem nm q cat) w (Some (Sqlite.largest_rowid t + 1))
    (Some (Sqlite.with_new_row nm q cat (clock w (reads w)) t))
    (S (reads w)).
Proof.
  intros [Ef Eo] Et Hr. world_cases w; simpl in Et, Ef; subst;
    try discriminate Eo;
    unfold calm_run; unfold_accessor; simpl;
    rewrite (insert_room _ _ _ _ _ Hr); simpl; repeat split; reflexivity.
Qed.

(* ===================================================================== *)
(** ** ORDER BY created_at DESC                                          *)
(* ===================================================================== *)

Lemma insert_desc_perm r l : Permutation (r :: l) (Sqlite.insert_desc r l).
Proof.
  induction l as [|x l IH]; simpl; [reflexivity|].
  destruct (created_at r <? created_at x); [|reflexivity].
  rewrite perm_swap. apply perm_skip, IH.
Qed.

Lemma order_by_perm l : Permutation l (Sqlite.order_by_created_at_desc l).
Proof.
  induction l as [|x l IH]; simpl; [constructor|].
  rewrite <- insert_desc_perm. apply perm_skip, IH.
Qed.

Lemma insert_desc_sorted r l :
  StronglySorted newest_first l -> StronglySorted newest_first (Sqlite.insert_desc r l).
Proof.
  induction l as [|x l IH]; simpl; intros Hs.
  - repeat constructor.
  - inversion Hs as [|? ? Hl Hx]; subst.
    destruct (created_at r <? created_at x) eqn:E.
    + apply Z.ltb_lt in E. constructor; [apply IH, Hl|].
      apply (Permutation_Forall (insert_desc_perm r l)).
      constructor; [unfold newest_first; lia|exact Hx].
    + apply Z.ltb_ge in E. constructor; [exact Hs|].
      constructor; [exact E|].
      eapply Forall_impl; [|exact Hx].
      unfold newest_first. intros; lia.
Qed.

Lemma order_by_sorted l :
  StronglySorted newest_first (Sqlite.order_by_created_at_desc l).
Proof.
  induction l as [|x l IH]; simpl; [constructor|].
  apply insert_desc_sorted, IH.
Qed.

(* ===================================================================== *)
(** ** Seeding and initialisation                                        *)
(* ===================================================================== *)

Lemma updateItem_write i nm q cat :
  updateItem i nm q cat = write_accessor (Sqlite.update_fields i nm q cat).
Proof. reflexivity. Qed.

Lemma toggleBoughtStatus_write i b :
  toggleBoughtStatus i b = write_accessor (Sqlite.update_bought i b).
Proof. reflexivity. Qed.

Lemma deleteItem_write i : deleteItem i = write_accessor (Sqlite.delete_id i).
Proof. reflexivity. Qed.

Lemma deleteAllBoughtItems_write :
  deleteAllBoughtItems = write_accessor Sqlite.delete_bought.
Proof. reflexivity. Qed.

Lemma clearAllItems_write : clearAllItems = write_accessor Sqlite.delete_all.
Proof. reflexivity. Qed.

Lemma largest_id_app l r :
  Sqlite.largest_id (l ++ [r]) = Z.max (Sqlite.largest_id l) (Z.max (id r) 0).
Proof.
  induction l as [|x l IH]; simpl; [lia|]. rewrite IH. lia.
Qed.

Lemma largest_id_nonneg l : 0 <= Sqlite.largest_id l.
Proof. induction l as [|x l IH]; simpl; lia. Qed.

(** After an INSERT the largest rowid is the one just assigned. *)
Lemma largest_rowid_inserted t nm q cat now :
  Sqlite.largest_rowid (Sqlite.with_new_row nm q cat now t)
  = Sqlite.largest_rowid t + 1.
Proof.
  unfold Sqlite.largest_rowid at 1. simpl. rewrite largest_id_app. simpl.
  pose proof (largest_id_nonneg (rows t)). unfold Sqlite.largest_rowid. lia.
Qed.

(** One turn of the seeding loop, with no fault pending. *)
Lemma insert_sample_calm nm q cat w t :
  no_fault w -> grocery_items w = Some t ->
  Sqlite.largest_rowid t < Sqlite.max_rowid ->
  calm_run (insert_sample (nm, q, cat)) w tt
    (Some (Sqlite.with_new_row nm q cat (clock w (reads w)) t))
    (S (reads w)).
Proof.
  intros [Ef Eo] Et Hr. destruct w as [pw d p t0 f c n]; simpl in Et, Ef; subst.
  unfold calm_run, insert_sample; unfold_accessor; simpl.
  rewrite (insert_room _ _ _ _ _ Hr); simpl.
  repeat split; try reflexivity; exact Eo.
Qed.


Lemma for_of_cons {A} (x : A) (l : list A) (f : A -> Async unit) (w : World) :
  for_of (x :: l) f w =
  match f x w with
  | (Returned _, w') => for_of l f w'
  | (Threw e, w') => (Threw e, w')
  end.
Proof. reflexivity. Qed.


Lemma with_new_row_rows nm q cat now t :
  rows (Sqlite.with_new_row nm q cat now t) =
  rows t ++ [mkItem (Sqlite.largest_rowid t + 1) nm q cat 0 now].
Proof. reflexivity. Qed.

Lemma seed_loop_calm w t :
  no_fault w -> grocery_items w = Some t ->
  Sqlite.largest_rowid t + 3 <= Sqlite.max_rowid ->
  calm_run (for_of sampleItems insert_sample) w tt
    (Some (mkTable (rows t ++ sample_rows (Sqlite.largest_rowid t) (clock w) (reads w))
                   (Sqlite.largest_rowid t + 3)))
    (S (S (S (reads w)))).
Proof.
  intros Ef Et Hr. unfold sampleItems. simpl for_of.
  eapply calm_run_bind.
  { apply insert_sample_calm; [exact Ef|exact Et|lia]. }
  intros w1 Ef1 Et1 Ec1 En1.
  eapply calm_run_bind.
  { apply insert_sample_calm; [exact Ef1|exact Et1|].
    rewrite largest_rowid_inserted. lia. }
  intros w2 Ef2 Et2 Ec2 En2.
  eapply calm_run_bind.
  { apply insert_sample_calm; [exact Ef2|exact Et2|].
    rewrite !largest_rowid_inserted. lia. }
  intros w3 Ef3 Et3 Ec3 En3.
  unfold calm_run, result_of, world_after, ret. simpl. no_fault_parts.
  repeat split; try assumption; try congruence.
  rewrite Et3. f_equal. unfold Sqlite.with_new_row at 1.
  repeat (rewrite with_new_row_rows || rewrite largest_rowid_inserted).
  rewrite Ec2, Ec1, En2, En1. unfold sample_rows.
  rewrite <- !app_assoc. simpl.
  replace (Sqlite.largest_rowid t + 1 + 1) with (Sqlite.largest_rowid t + 2) by lia.
  replace (Sqlite.largest_rowid t + 2 + 1) with (Sqlite.largest_rowid t + 3) by lia.
  reflexivity.
Qed.





(** initDatabase with no fault on an absent or empty table with room for
    three rows: exactly the three samples are inserted. *)
Lemma initDatabase_seeds w :
  no_fault w ->
  rows (created (grocery_items w)) = [] ->
  Sqlite.largest_rowid (created (grocery_items w)) + 3 <= Sqlite.max_rowid ->
  calm_run initDatabase w true
    (Some (mkTable (sample_rows (Sqlite.largest_rowid (created (grocery_items w)))
                                (clock w) (reads w))
                   (Sqlite.largest_rowid (created (grocery_items w)) + 3)))
    (S (S (S (reads w)))).
Proof.
  intros [Ef Eo] Hrows Hroom.
  destruct w as [pw d p t0 f c n]; simpl in Ef, Hrows, Hroom; subst.
  assert (Hloop : forall d' p',
    open_failed (mkWorld pw d' p' (Some (created t0)) [] c n) = false ->
    calm_run (for_of sampleItems insert_sample)
      (mkWorld pw d' p' (Some (created t0)) [] c n) tt
      (Some (mkTable (sample_rows (Sqlite.largest_rowid (created t0)) c n)
                     (Sqlite.largest_rowid (created t0) + 3)))
      (S (S (S n)))).
  { intros d' p' Eo'.
    pose proof (seed_loop_calm (mkWorld pw d' p' (Some (created t0)) [] c n)
                  (created t0) (conj eq_refl Eo') eq_refl Hroom) as L.
    rewrite Hrows in L. exact L. }
  destruct t0 as [[[|x rs] s]|]; simpl in Hrows; try discriminate;
    destruct pw, d, p as [[|e]|]; try discriminate Eo;
    unfold calm_run in *; unfold_accessor; cbn -[for_of];
    match goal with
    | |- context [for_of sampleItems insert_sample (mkWorld _ ?d' ?p' _ _ _ _)] =>
        destruct (Hloop d' p' eq_refl) as (L1 & L2 & L3 & L4 & L5)
    end;
    cbn -[for_of] in L1, L2, L3, L4, L5;
    match goal with
    | |- context [for_of sampleItems insert_sample ?W] =>
        destruct (for_of sampleItems insert_sample W) as [r w1]
    end; simpl in L1, L2, L3, L4, L5; subst r; destruct L3 as [L3 L3o]; simpl;
    repeat split; assumption.
Qed.

(* ===================================================================== *)
(** ** Facts about the statements                                        *)
(* ===================================================================== *)

Lemma map_fixed {A} (f : A -> A) (l : list A) :
  (forall x, In x l -> f x = x) -> map f l = l.
Proof.
  intros H. rewrite <- (map_id l) at 2. apply map_ext_in, H.
Qed.

Lemma update_fields_absent i nm q cat t :
  (forall r, In r (rows t) -> id r <> i) ->
  Sqlite.update_fields i nm q cat t = t.
Proof.
  intros H. destruct t as [l s]. unfold Sqlite.update_fields. simpl in *.
  f_equal. apply map_fixed. intros r Hr.
  destruct (Z.eqb_spec (id r) i) as [E|E]; [|reflexivity].
  exfalso. exact (H r Hr E).
Qed.

(** Setting the flag to 1 and back to 0 restores a table whose rows of
    that id had the flag 0. *)
Lemma update_bought_round_trip i t :
  (forall r, In r (rows t) -> id r = i -> bought r = 0) ->
  Sqlite.update_bought i 0 (Sqlite.update_bought i 1 t) = t.
Proof.
  intros H. destruct t as [l s]. unfold Sqlite.update_bought. simpl in *.
  f_equal. rewrite map_map. apply map_fixed. intros r Hr.
  destruct (Z.eqb_spec (id r) i) as [E|E]; simpl.
  - rewrite (proj2 (Z.eqb_eq _ _) E). specialize (H r Hr E).
    destruct r; simpl in *; subst; reflexivity.
  - rewrite (proj2 (Z.eqb_neq _ _) E). reflexivity.
Qed.

Lemma delete_bought_in t r :
  In r (rows (Sqlite.delete_bought t)) <-> In r (rows t) /\ bought r <> 1.
Proof.
  unfold Sqlite.delete_bought. simpl. rewrite filter_In.
  destruct (Z.eqb_spec (bought r) 1); simpl; intuition congruence.
Qed.

Lemma delete_bought_count t r :
  bought r <> 1 ->
  count_occ GroceryItem_eq_dec (rows (Sqlite.delete_bought t)) r =
  count_occ GroceryItem_eq_dec (rows t) r.
Proof.
  intros Hb. unfold Sqlite.delete_bought. simpl.
  induction (rows t) as [|x l IH]; simpl; [reflexivity|].
  destruct (Z.eqb_spec (bought x) 1) as [E|E]; simpl.
  - destruct (GroceryItem_eq_dec x r) as [->|_]; [contradiction|exact IH].
  - destruct (GroceryItem_eq_dec x r); rewrite IH; reflexivity.
Qed.

(* ===================================================================== *)
(** ** The accessor's contract                                           *)
(* ===================================================================== *)

(** C3. addItem inserts exactly one new row carrying the given name,
    quantity and category, with bought = 0 and created_at equal to the
    reading of Date.now() taken by the call; the rows already there are
    unchanged and precede it, and the identifier returned is the new
    row's, larger than every identifier in the table.  Otherwise addItem
    returns null and the table is as before.  With no fault pending, no
    failed opening remembered, the table present and a rowid left, the
    insertion does go through. *)
Theorem addItem_inserts_one_row (nm : string) (q : JS.Number) (cat : string)
        (w : World) :
  ((exists i t,
       result_of (addItem nm q cat) w = Returned (Some i) /\
       grocery_items w = Some t /\
       table_after (addItem nm q cat) w =
         Some (mkTable (rows t ++ [mkItem i nm q cat 0 (clock w (reads w))]) i) /\
       Forall (fun r => id r < i) (rows t))
   \/ (result_of (addItem nm q cat) w = Returned None /\
       table_after (addItem nm q cat) w = grocery_items w))
  /\ (forall t, faults w = [] -> open_failed w = false ->
                grocery_items w = Some t ->
                Sqlite.largest_rowid t < Sqlite.max_rowid ->
                result_of (addItem nm q cat) w =
                Returned (Some (Sqlite.largest_rowid t + 1))).
Proof.
  split.
  - destruct (addItem_cases nm q cat w) as [(t & Et & Hr & Hres & Htab)|H];
      [left|right; exact H].
    exists (Sqlite.largest_rowid t + 1), t. repeat split; try assumption.
    apply Forall_forall. intros r Hin.
    pose proof (largest_rowid_upper t r Hin). lia.
  - intros t Ef Eo Et Hr.
    exact (proj1 (addItem_calm nm q cat w t (conj Ef Eo) Et Hr)).
Qed.

(** C5. With the table present, no store fault and no failed opening
    remembered, getAllItems returns the stored rows, each exactly once
    and unaltered (a permutation of the table), ordered by created_at
    descending, and leaves the table as it is. *)
Theorem getAllItems_newest_first (w : World) (t : Table) :
  faults w = [] -> open_failed w = false -> grocery_items w = Some t ->
  exists l,
    result_of getAllItems w = Returned l /\
    result_of getAllItems_try w = Returned l /\
    Permutation (rows t) l /\
    StronglySorted newest_first l /\
    table_after getAllItems w = Some t.
Proof.
  intros Ef Eo Et.
  destruct (getAllItems_calm w t (conj Ef Eo) Et) as [Htry Hget].
  exists (Sqlite.select_all t). repeat split.
  - exact (proj1 Hget).
  - exact (proj1 Htry).
  - apply order_by_perm.
  - apply order_by_sorted.
  - exact (proj1 (proj2 Hget)).
Qed.

(** C6. updateItem on a present table, with no store fault and no
    failed opening remembered, returns true; every row whose id matches
    gets the given name, quantity and category and keeps its id,
    created_at and bought flag; every other row, the number of rows and
    their order are unchanged; when no row has the id,
    the table is unchanged. *)
Theorem updateItem_frame (w : World) (t : Table) (i : Z) (nm : string) (q : JS.Number)
        (cat : string) :
  faults w = [] -> open_failed w = false -> grocery_items w = Some t ->
  exists t',
    result_of (updateItem i nm q cat) w = Returned true /\
    table_after (updateItem i nm q cat) w = Some t' /\
    sqlite_sequence t' = sqlite_sequence t /\
    List.length (rows t') = List.length (rows t) /\
    (forall k r, nth_error (rows t) k = Some r -> id r = i ->
       nth_error (rows t') k =
       Some (mkItem (id r) nm q cat (bought r) (created_at r))) /\
    (forall k r, nth_error (rows t) k = Some r -> id r <> i ->
       nth_error (rows t') k = Some r) /\
    ((forall r, In r (rows t) -> id r <> i) -> t' = t).
Proof.
  intros Ef Eo Et. rewrite updateItem_write.
  destruct (write_accessor_calm (Sqlite.update_fields i nm q cat) w t
              (conj Ef Eo) Et) as (Hr & Ht & _).
  exists (Sqlite.update_fields i nm q cat t). repeat split.
  - exact Hr.
  - exact Ht.
  - simpl. apply length_map.
  - intros k r Hk Hi. simpl. rewrite nth_error_map, Hk. simpl.
    rewrite (proj2 (Z.eqb_eq _ _) Hi). reflexivity.
  - intros k r Hk Hi. simpl. rewrite nth_error_map, Hk. simpl.
    rewrite (proj2 (Z.eqb_neq _ _) Hi). reflexivity.
  - apply update_fields_absent.
Qed.

(** C7. On a present table with no store fault and no failed opening
    remembered, where the rows of the given id have bought = 0:
    toggleBoughtStatus(id, 1) sets only the bought flag of those rows,
    and a following toggleBoughtStatus(id, 0) gives back the table
    exactly as it was. *)
Theorem toggleBought_round_trip (w : World) (t : Table) (i : Z) :
  faults w = [] -> open_failed w = false -> grocery_items w = Some t ->
  (forall r, In r (rows t) -> id r = i -> bought r = 0) ->
  result_of (toggle_on_off i) w = Returned (true, true) /\
  table_after (toggle_on_off i) w = Some t /\
  exists t1,
    table_after (toggleBoughtStatus i 1) w = Some t1 /\
    sqlite_sequence t1 = sqlite_sequence t /\
    (forall k r, nth_error (rows t) k = Some r -> id r = i ->
       nth_error (rows t1) k =
       Some (mkItem (id r) (name r) (quantity r) (category r) 1 (created_at r))) /\
    (forall k r, nth_error (rows t) k = Some r -> id r <> i ->
       nth_error (rows t1) k = Some r).
Proof.
  intros Ef0 Eo Et H0. pose proof (conj Ef0 Eo : no_fault w) as Ef.
  assert (Hrun : calm_run (toggle_on_off i) w (true, true) (Some t) (reads w)).
  { unfold toggle_on_off. rewrite !toggleBoughtStatus_write.
    eapply calm_run_bind.
    { apply write_accessor_calm; [exact Ef|exact Et]. }
    intros w1 Ef1 Et1 Ec1 En1.
    eapply calm_run_bind.
    { apply write_accessor_calm; [exact Ef1|exact Et1]. }
    intros w2 Ef2 Et2 Ec2 En2.
    unfold calm_run, result_of, world_after, ret. simpl.
    rewrite Et2, update_bought_round_trip by exact H0.
    no_fault_parts. repeat split; congruence. }
  split; [exact (proj1 Hrun)|]. split; [exact (proj1 (proj2 Hrun))|].
  exists (Sqlite.update_bought i 1 t). rewrite toggleBoughtStatus_write.
  destruct (write_accessor_calm (Sqlite.update_bought i 1) w t Ef Et)
    as (_ & Ht & _).
  repeat split.
  - exact Ht.
  - intros k r Hk Hi. simpl. rewrite nth_error_map, Hk. simpl.
    rewrite (proj2 (Z.eqb_eq _ _) Hi). reflexivity.
  - intros k r Hk Hi. simpl. rewrite nth_error_map, Hk. simpl.
    rewrite (proj2 (Z.eqb_neq _ _) Hi). reflexivity.
Qed.

(** C8. When deleteAllBoughtItems returns true, the table was present
    and now holds no row with bought = 1, while every row whose flag is
    not 1 is still there, unchanged and as many times as before; nothing
    is added. *)
Theorem deleteAllBoughtItems_only_bought (w : World) :
  result_of deleteAllBoughtItems w = Returned true ->
  exists t t',
    grocery_items w = Some t /\
    table_after deleteAllBoughtItems w = Some t' /\
    sqlite_sequence t' = sqlite_sequence t /\
    (forall r, In r (rows t') -> bought r <> 1) /\
    (forall r, In r (rows t') -> In r (rows t)) /\
    (forall r, bought r <> 1 ->
       count_occ GroceryItem_eq_dec (rows t') r =
       count_occ GroceryItem_eq_dec (rows t) r).
Proof.
  rewrite deleteAllBoughtItems_write. intros H.
  destruct (write_accessor_true _ _ H) as (t & Et & Ht).
  exists t, (Sqlite.delete_bought t). repeat split; try assumption.
  - intros r Hin. apply delete_bought_in in Hin. tauto.
  - intros r Hin. apply delete_bought_in in Hin. tauto.
  - intros r Hb. apply delete_bought_count, Hb.
Qed.

Lemma update_bought_new_row nm q cat now b t :
  Sqlite.update_bought (Sqlite.largest_rowid t + 1) b
    (Sqlite.with_new_row nm q cat now t)
  = mkTable (rows t ++ [mkItem (Sqlite.largest_rowid t + 1) nm q cat b now])
            (Sqlite.largest_rowid t + 1).
Proof.
  unfold Sqlite.update_bought, Sqlite.with_new_row. simpl. f_equal.
  rewrite map_app. simpl. rewrite Z.eqb_refl. f_equal.
  apply map_fixed. intros r Hr.
  pose proof (largest_rowid_upper t r Hr).
  destruct (Z.eqb_spec (id r) (Sqlite.largest_rowid t + 1)); [lia|reflexivity].
Qed.

Lemma scenario_calm (w : World) (t : Table) :
  no_fault w -> grocery_items w = Some t ->
  Sqlite.largest_rowid t < Sqlite.max_rowid ->
  result_of scenario w =
  Returned
    (Sqlite.order_by_created_at_desc
       (rows t ++ [mkItem (Sqlite.largest_rowid t + 1) "Milk" 2 "Drinks" 0
                          (clock w (reads w))]),
     Sqlite.order_by_created_at_desc
       (rows t ++ [mkItem (Sqlite.largest_rowid t + 1) "Milk" 2 "Drinks" 1
                          (clock w (reads w))]),
     Sqlite.order_by_created_at_desc
       (filter (fun r => negb (bought r =? 1)) (rows t))).
Proof.
  intros Ef Et Hr.
  set (t1 := Sqlite.with_new_row "Milk" 2 "Drinks" (clock w (reads w)) t).
  set (t2 := Sqlite.update_bought (Sqlite.largest_rowid t + 1) 1 t1).
  assert (Hrun : calm_run scenario w
            (Sqlite.select_all t1, Sqlite.select_all t2,
             Sqlite.select_all (Sqlite.delete_bought t2))
            (Some (Sqlite.delete_bought t2)) (S (reads w))).
  { unfold scenario.
    eapply calm_run_bind; [apply addItem_calm; eassumption|].
    intros w1 Ef1 Et1 Ec1 En1.
    eapply calm_run_bind; [apply (getAllItems_calm w1 t1 Ef1 Et1)|].
    intros w2 Ef2 Et2 Ec2 En2.
    rewrite toggleBoughtStatus_write.
    eapply calm_run_bind; [apply write_accessor_calm; eassumption|].
    intros w3 Ef3 Et3 Ec3 En3.
    eapply calm_run_bind; [apply (getAllItems_calm w3 t2 Ef3 Et3)|].
    intros w4 Ef4 Et4 Ec4 En4.
    rewrite deleteAllBoughtItems_write.
    eapply calm_run_bind; [apply write_accessor_calm; eassumption|].
    intros w5 Ef5 Et5 Ec5 En5.
    eapply calm_run_bind; [apply (getAllItems_calm w5 _ Ef5 Et5)|].
    intros w6 Ef6 Et6 Ec6 En6.
    unfold calm_run, result_of, world_after, ret. simpl.
    no_fault_parts. repeat split; congruence. }
  rewrite (proj1 Hrun). unfold t2, t1.
  rewrite update_bought_new_row. unfold Sqlite.select_all, Sqlite.delete_bought.
  simpl rows. rewrite filter_app. simpl. rewrite app_nil_r. reflexivity.
Qed.

(** C1 (as the code has it). With no store fault and no failed opening
    remembered, on a table that is present and holds the rows R: after
    add("Milk", 2, "Drinks") the listing holds the rows of R and exactly
    one new row {Milk, 2, Drinks, bought 0} under a fresh id, newest
    first; after toggleBought(id, 1) the same with bought 1 on that row;
    after removeAllBought() the listing holds the rows of R whose flag
    is not 1.  When the table holds no row, the listings are exactly the
    one Milk row, the Milk row with bought 1, and the empty list. *)
Theorem scenario_on_present_table (w : World) (t : Table) :
  faults w = [] -> open_failed w = false -> grocery_items w = Some t ->
  Sqlite.largest_rowid t < Sqlite.max_rowid ->
  exists i listed toggled remaining,
    result_of scenario w = Returned (listed, toggled, remaining) /\
    Forall (fun r => id r < i) (rows t) /\
    Permutation (mkItem i "Milk" 2 "Drinks" 0 (clock w (reads w)) :: rows t) listed /\
    StronglySorted newest_first listed /\
    Permutation (mkItem i "Milk" 2 "Drinks" 1 (clock w (reads w)) :: rows t) toggled /\
    StronglySorted newest_first toggled /\
    Permutation (filter (fun r => negb (bought r =? 1)) (rows t)) remaining /\
    StronglySorted newest_first remaining /\
    (rows t = [] ->
     listed = [mkItem i "Milk" 2 "Drinks" 0 (clock w (reads w))] /\
     toggled = [mkItem i "Milk" 2 "Drinks" 1 (clock w (reads w))] /\
     remaining = []).
Proof.
  intros Ef Eo Et Hr. pose proof (scenario_calm w t (conj Ef Eo) Et Hr) as H.
  exists (Sqlite.largest_rowid t + 1). eexists _, _, _. split; [exact H|].
  split.
  { apply Forall_forall. intros r Hin.
    pose proof (largest_rowid_upper t r Hin). lia. }
  repeat split; try apply order_by_sorted.
  - rewrite <- order_by_perm. apply Permutation_cons_append.
  - rewrite <- order_by_perm. apply Permutation_cons_append.
  - apply order_by_perm.
  - rewrite H0. reflexivity.
  - rewrite H0. reflexivity.
  - rewrite H0. reflexivity.
Qed.

(** handleSave with no item being edited is addItem on the trimmed
    fields and on quantityNum. *)
Lemma handleSave_add nm quantity cat w :
  AddItemModal.validateForm nm = true ->
  AddItemModal.handleSave nm quantity cat None w =
  match addItem (JS.trim nm) (AddItemModal.quantityNum quantity) (JS.trim cat) w with
  | (Returned (Some i), w') =>
      (Returned (if i =? 0 then AddItemModal.AddFailed
                 else AddItemModal.ItemAdded i), w')
  | (Returned None, w') => (Returned AddItemModal.AddFailed, w')
  | (Threw _, w') => (Returned AddItemModal.SaveCrashed, w')
  end.
Proof.
  intros Hv. unfold AddItemModal.handleSave. rewrite Hv. simpl.
  unfold try_catch, bind, ret.
  destruct (addItem (JS.trim nm) (AddItemModal.quantityNum quantity) (JS.trim cat) w)
    as [[[i|]|e] w']; reflexivity.
Qed.

(** C2 (as the code has it). For a form that passes validation, the save
    handler passes to addItem the default 1 when parseInt reads the
    quantity text as NaN or as 0, and the Number read otherwise (the
    double nearest to the integer that the digits spell), also when it
    is negative or an infinity; the row stored carries that quantity.
    addItem itself stores the quantity it is given. *)
Theorem handleSave_quantity_default (nm quantity cat : string) (w : World) :
  AddItemModal.validateForm nm = true ->
  (JS.parseInt quantity = None -> AddItemModal.quantityNum quantity = 1) /\
  (JS.parseInt quantity = Some (JS.Finite 0) ->
   AddItemModal.quantityNum quantity = 1) /\
  (forall x, JS.parseInt quantity = Some x -> x <> 0 ->
             AddItemModal.quantityNum quantity = x) /\
  world_after (AddItemModal.handleSave nm quantity cat None) w =
    world_after (addItem (JS.trim nm) (AddItemModal.quantityNum quantity)
                         (JS.trim cat)) w /\
  (forall i,
     result_of (AddItemModal.handleSave nm quantity cat None) w =
       Returned (AddItemModal.ItemAdded i) ->
     exists t,
       grocery_items w = Some t /\
       table_after (AddItemModal.handleSave nm quantity cat None) w =
         Some (mkTable
                 (rows t ++ [mkItem i (JS.trim nm)
                                    (AddItemModal.quantityNum quantity)
                                    (JS.trim cat) 0 (clock w (reads w))])
                 i)) /\
  (forall q i,
     result_of (addItem nm q cat) w = Returned (Some i) ->
     exists t,
       grocery_items w = Some t /\
       table_after (addItem nm q cat) w =
         Some (mkTable (rows t ++ [mkItem i nm q cat 0 (clock w (reads w))]) i)).
Proof.
  intros Hv. unfold AddItemModal.quantityNum, JS.or_else.
  split; [intros ->; reflexivity|].
  split; [intros ->; reflexivity|].
  split.
  { intros [n|b] -> Hn; [|reflexivity].
    destruct (Z.eqb_spec n 0) as [->|_]; [contradiction|reflexivity]. }
  fold (JS.or_else (JS.parseInt quantity) 1).
  fold (AddItemModal.quantityNum quantity).
  assert (Hadd : forall nm' q i,
    result_of (addItem nm' q cat) w = Returned (Some i) ->
    exists t, grocery_items w = Some t /\
              table_after (addItem nm' q cat) w =
              Some (mkTable (rows t ++ [mkItem i nm' q cat 0 (clock w (reads w))]) i)).
  { intros nm' q i Hi.
    destruct (addItem_cases nm' q cat w) as [(t & Et & _ & Hres & Htab)|[Hres _]].
    - rewrite Hres in Hi. injection Hi as <-. exists t. split; assumption.
    - rewrite Hres in Hi. discriminate. }
  split; [|split].
  - unfold world_after. rewrite (handleSave_add _ _ _ _ Hv).
    destruct (addItem (JS.trim nm) (AddItemModal.quantityNum quantity) (JS.trim cat) w)
      as [[[i|]|e] w']; reflexivity.
  - intros i Hi. unfold result_of, table_after in *.
    rewrite (handleSave_add _ _ _ _ Hv) in *.
    destruct (addItem_cases (JS.trim nm) (AddItemModal.quantityNum quantity)
                (JS.trim cat) w) as [(t & Et & _ & Hres & Htab)|[Hres _]];
      unfold result_of, table_after in *;
      destruct (addItem (JS.trim nm) (AddItemModal.quantityNum quantity)
                        (JS.trim cat) w) as [[[j|]|e] w'];
      simpl in *; try discriminate.
    injection Hres as ->.
    destruct (Sqlite.largest_rowid t + 1 =? 0); [discriminate|].
    injection Hi as <-. exists t. split; assumption.
  - intros q i. apply Hadd.
Qed.

Lemma try_catch_caught {A} (body : Async A) (sentinel : A) (w : World) :
  caught body (try_catch body (fun _ => ret sentinel)) sentinel w.
Proof.
  unfold caught, result_of, try_catch, ret.
  destruct (body w) as [[a|e] w']; simpl; repeat split;
    try (intros ? H; congruence); eexists; reflexivity.
Qed.

Lemma seedSampleData_returns (w : World) : result_of seedSampleData w = Returned tt.
Proof.
  unfold seedSampleData, result_of, try_catch, ret.
  destruct (seedSampleData_try w) as [[[]|e] w']; reflexivity.
Qed.



(** The catch of handleSave is never reached: the accessor it calls
    does not throw. *)
Lemma handleSave_never_crashes nm quantity cat editItem w :
  exists s,
    result_of (AddItemModal.handleSave nm quantity cat editItem) w = Returned s /\
    s <> AddItemModal.SaveCrashed.
Proof.
  unfold AddItemModal.handleSave.
  destruct (AddItemModal.validateForm nm); simpl;
    [|exists AddItemModal.Rejected; split; [reflexivity|discriminate]].
  destruct editItem as [it|]; unfold result_of, try_catch, bind, ret.
  - destruct (try_catch_caught
                (updateItem_try (id it) (JS.trim nm)
                   (AddItemModal.quantityNum quantity) (JS.trim cat))
                false w) as (_ & _ & (a & Ha)).
    fold (updateItem (id it) (JS.trim nm) (AddItemModal.quantityNum quantity)
            (JS.trim cat)) in Ha.
    unfold result_of in Ha.
    destruct (updateItem (id it) (JS.trim nm) (AddItemModal.quantityNum quantity)
                (JS.trim cat) w) as [[b|e] w']; simpl in Ha; [|discriminate].
    destruct b; eexists; (split; [reflexivity|discriminate]).
  - destruct (try_catch_caught
                (addItem_try (JS.trim nm) (AddItemModal.quantityNum quantity)
                   (JS.trim cat))
                None w) as (_ & _ & (a & Ha)).
    fold (addItem (JS.trim nm) (AddItemModal.quantityNum quantity) (JS.trim cat))
      in Ha.
    unfold result_of in Ha.
    destruct (addItem (JS.trim nm) (AddItemModal.quantityNum quantity)
                (JS.trim cat) w) as [[[i|]|e] w']; simpl in Ha; [| |discriminate].
    + destruct (i =? 0); eexists; (split; [reflexivity|discriminate]).
    + eexists; (split; [reflexivity|discriminate]).
Qed.



(* ===================================================================== *)
(** ** Concrete runs                                                     *)
(* ===================================================================== *)

(** On a store that initDatabase has just initialised, the scenario
    lists four rows after the add, and three rows at its end. *)
Lemma scenario_after_initDatabase :
  result_of (let* _ := initDatabase in scenario) (fresh_world []) =
  Returned
    ([ mkItem 4 "Milk" 2 "Drinks" 0 1003;
       mkItem 3 "Bánh mì" 1 "Thực phẩm khô" 0 1002;
       mkItem 2 "Trứng" 10 "Thực phẩm tươi sống" 0 1001;
       mkItem 1 "Sữa" 2 "Đồ uống" 0 1000 ],
     [ mkItem 4 "Milk" 2 "Drinks" 1 1003;
       mkItem 3 "Bánh mì" 1 "Thực phẩm khô" 0 1002;
       mkItem 2 "Trứng" 10 "Thực phẩm tươi sống" 0 1001;
       mkItem 1 "Sữa" 2 "Đồ uống" 0 1000 ],
     [ mkItem 3 "Bánh mì" 1 "Thực phẩm khô" 0 1002;
       mkItem 2 "Trứng" 10 "Thực phẩm tươi sống" 0 1001;
       mkItem 1 "Sữa" 2 "Đồ uống" 0 1000 ]).
Proof. vm_compute. reflexivity. Qed.

Lemma scenario_on_present_table_witness :
  exists i listed toggled remaining,
    result_of scenario cleared_world = Returned (listed, toggled, remaining) /\
    Forall (fun r => id r < i) [] /\
    Permutation [mkItem i "Milk" 2 "Drinks" 0 1003] listed /\
    StronglySorted newest_first listed /\
    Permutation [mkItem i "Milk" 2 "Drinks" 1 1003] toggled /\
    StronglySorted newest_first toggled /\
    Permutation (@nil GroceryItem) remaining /\
    StronglySorted newest_first remaining /\
    (@nil GroceryItem = [] ->
     listed = [mkItem i "Milk" 2 "Drinks" 0 1003] /\
     toggled = [mkItem i "Milk" 2 "Drinks" 1 1003] /\
     remaining = []).
Proof.
  apply (scenario_on_present_table cleared_world (mkTable [] 3));
    [reflexivity | reflexivity | reflexivity | vm_compute; reflexivity].
Defined.

(** The run behind the witness above, on a table emptied by
    clearAllItems: one row, that row bought, no row. *)
Example scenario_run :
  result_of scenario cleared_world =
  Returned ([mkItem 4 "Milk" 2 "Drinks" 0 1003],
            [mkItem 4 "Milk" 2 "Drinks" 1 1003],
            []).
Proof. reflexivity. Qed.

(** The form stores a negative quantity as typed. *)
Lemma handleSave_stores_negative_quantity :
  JS.parseInt "-5" = Some (JS.Finite (-5)) /\
  AddItemModal.handleSave "Milk" "-5" "Drinks" None cleared_world =
  (Returned (AddItemModal.ItemAdded 4),
   mkWorld false true (Some Fulfilled)
           (Some (mkTable [mkItem 4 "Milk" (-5) "Drinks" 0 1003] 4))
           [] (clock cleared_world) 4).
Proof. split; vm_compute; reflexivity. Qed.

Lemma handleSave_quantity_default_witness :
  (JS.parseInt "abc" = None -> AddItemModal.quantityNum "abc" = 1) /\
  (JS.parseInt "abc" = Some (JS.Finite 0) -> AddItemModal.quantityNum "abc" = 1) /\
  (forall x, JS.parseInt "abc" = Some x -> x <> 0 ->
             AddItemModal.quantityNum "abc" = x) /\
  world_after (AddItemModal.handleSave " Milk " "abc" "Drinks" None) cleared_world =
    world_after (addItem (JS.trim " Milk ") (AddItemModal.quantityNum "abc")
                         (JS.trim "Drinks")) cleared_world /\
  (forall i,
     result_of (AddItemModal.handleSave " Milk " "abc" "Drinks" None) cleared_world =
       Returned (AddItemModal.ItemAdded i) ->
     exists t,
       grocery_items cleared_world = Some t /\
       table_after (AddItemModal.handleSave " Milk " "abc" "Drinks" None)
                   cleared_world =
         Some (mkTable
                 (rows t ++ [mkItem i (JS.trim " Milk ")
                                    (AddItemModal.quantityNum "abc")
                                    (JS.trim "Drinks") 0
                                    (clock cleared_world (reads cleared_world))])
                 i)) /\
  (forall q i,
     result_of (addItem " Milk " q "Drinks") cleared_world = Returned (Some i) ->
     exists t,
       grocery_items cleared_world = Some t /\
       table_after (addItem " Milk " q "Drinks") cleared_world =
         Some (mkTable (rows t ++ [mkItem i " Milk " q "Drinks" 0
                                          (clock cleared_world (reads cleared_world))])
                       i)).
Proof.
  apply (handleSave_quantity_default " Milk " "abc" "Drinks" cleared_world).
  reflexivity.
Defined.

Lemma getAllItems_newest_first_witness :
  exists l,
    result_of getAllItems seeded_world = Returned l /\
    result_of getAllItems_try seeded_world = Returned l /\
    Permutation (rows seeded_table) l /\
    StronglySorted newest_first l /\
    table_after getAllItems seeded_world = Some seeded_table.
Proof.
  apply (getAllItems_newest_first seeded_world seeded_table); reflexivity.
Defined.

(** The listing behind the witness above. *)
Example getAllItems_run :
  result_of getAllItems seeded_world =
  Returned [ mkItem 3 "Bánh mì" 1 "Thực phẩm khô" 0 1002;
             mkItem 2 "Trứng" 10 "Thực phẩm tươi sống" 0 1001;
             mkItem 1 "Sữa" 2 "Đồ uống" 0 1000 ].
Proof. reflexivity. Qed.

Lemma updateItem_frame_witness :
  exists t',
    result_of (updateItem 2 "Eggs" 12 "Fresh") seeded_world = Returned true /\
    table_after (updateItem 2 "Eggs" 12 "Fresh") seeded_world = Some t' /\
    sqlite_sequence t' = sqlite_sequence seeded_table /\
    List.length (rows t') = List.length (rows seeded_table) /\
    (forall k r, nth_error (rows seeded_table) k = Some r -> id r = 2 ->
       nth_error (rows t') k =
       Some (mkItem (id r) "Eggs" 12 "Fresh" (bought r) (created_at r))) /\
    (forall k r, nth_error (rows seeded_table) k = Some r -> id r <> 2 ->
       nth_error (rows t') k = Some r) /\
    ((forall r, In r (rows seeded_table) -> id r <> 2) -> t' = seeded_table).
Proof.
  apply (updateItem_frame seeded_world seeded_table 2 "Eggs" 12 "Fresh");
    reflexivity.
Defined.

(** The update behind the witness above. *)
Example updateItem_run :
  table_after (updateItem 2 "Eggs" 12 "Fresh") seeded_world =
  Some (mkTable [ mkItem 1 "Sữa" 2 "Đồ uống" 0 1000;
                  mkItem 2 "Eggs" 12 "Fresh" 0 1001;
                  mkItem 3 "Bánh mì" 1 "Thực phẩm khô" 0 1002 ] 3) /\
  table_after (updateItem 7 "Eggs" 12 "Fresh") seeded_world = Some seeded_table /\
  result_of (updateItem 7 "Eggs" 12 "Fresh") seeded_world = Returned true.
Proof. repeat split; reflexivity. Qed.

Lemma toggleBought_round_trip_witness :
  result_of (toggle_on_off 2) seeded_world = Returned (true, true) /\
  table_after (toggle_on_off 2) seeded_world = Some seeded_table /\
  exists t1,
    table_after (toggleBoughtStatus 2 1) seeded_world = Some t1 /\
    sqlite_sequence t1 = sqlite_sequence seeded_table /\
    (forall k r, nth_error (rows seeded_table) k = Some r -> id r = 2 ->
       nth_error (rows t1) k =
       Some (mkItem (id r) (name r) (quantity r) (category r) 1 (created_at r))) /\
    (forall k r, nth_error (rows seeded_table) k = Some r -> id r <> 2 ->
       nth_error (rows t1) k = Some r).
Proof.
  apply (toggleBought_round_trip seeded_world seeded_table 2);
    [reflexivity | reflexivity | reflexivity |].
  intros r Hin _. simpl in Hin.
  destruct Hin as [<-|[<-|[<-|[]]]]; reflexivity.
Defined.

Lemma deleteAllBoughtItems_only_bought_witness :
  exists t t',
    grocery_items shopping_world = Some t /\
    table_after deleteAllBoughtItems shopping_world = Some t' /\
    sqlite_sequence t' = sqlite_sequence t /\
    (forall r, In r (rows t') -> bought r <> 1) /\
    (forall r, In r (rows t') -> In r (rows t)) /\
    (forall r, bought r <> 1 ->
       count_occ GroceryItem_eq_dec (rows t') r =
       count_occ GroceryItem_eq_dec (rows t) r).
Proof.
  apply (deleteAllBoughtItems_only_bought shopping_world). reflexivity.
Defined.

(** The run behind the witness above: the bought row goes, the others stay. *)
Example deleteAllBoughtItems_run :
  grocery_items shopping_world =
    Some (mkTable
            [ mkItem 1 "Sữa" 2 "Đồ uống" 0 1000;
              mkItem 2 "Trứng" 10 "Thực phẩm tươi sống" 1 1001;
              mkItem 3 "Bánh mì" 1 "Thực phẩm khô" 0 1002 ] 3) /\
  table_after deleteAllBoughtItems shopping_world =
    Some (mkTable
            [ mkItem 1 "Sữa" 2 "Đồ uống" 0 1000;
              mkItem 3 "Bánh mì" 1 "Thực phẩm khô" 0 1002 ] 3).
Proof. split; reflexivity. Qed.




(* ===================================================================== *)
(** ** Properties kept by every call                                     *)
(* ===================================================================== *)

Lemma keeps_ret {A} P (a : A) : keeps P (ret a).
Proof. intros w H. exact H. Qed.

Lemma keeps_throw {A} P e : keeps P (@throw A e).
Proof. intros w H. exact H. Qed.

Lemma keeps_bind {A B} P (m : Async A) (k : A -> Async B) :
  keeps P m -> (forall a, keeps P (k a)) -> keeps P (bind m k).
Proof.
  intros Hm Hk w H. specialize (Hm w H). unfold world_after, bind in *.
  destruct (m w) as [[a|e] w1]; simpl in *; [apply Hk, Hm|exact Hm].
Qed.

Lemma keeps_try_catch {A} P (body : Async A) (handler : Error -> Async A) :
  keeps P body -> (forall e, keeps P (handler e)) ->
  keeps P (try_catch body handler).
Proof.
  intros Hm Hk w H. specialize (Hm w H). unfold world_after, try_catch in *.
  destruct (body w) as [[a|e] w1]; simpl in *; [exact Hm|apply Hk, Hm].
Qed.

Lemma keeps_for_of {A} P (l : list A) (f : A -> Async unit) :
  (forall x, In x l -> keeps P (f x)) -> keeps P (for_of l f).
Proof.
  induction l as [|x l IH]; simpl; intros Hf.
  - apply keeps_ret.
  - apply keeps_bind; [apply Hf; now left|intros _; apply IH].
    intros y Hy. apply Hf. now right.
Qed.

Ltac keeps_steps :=
  repeat match goal with
         | |- keeps _ (ret _) => apply keeps_ret
         | |- keeps _ (throw _) => apply keeps_throw
         | |- keeps _ (bind _ _) => apply keeps_bind; [|intros ?]
         | |- keeps _ (try_catch _ _) => apply keeps_try_catch; [|intros ?]
         | |- keeps _ (for_of _ _) => apply keeps_for_of; intros ? ?
         | H : driver_invariant _ ?P |- keeps ?P Date_now => apply (di_now _ P H)
         | H : driver_invariant _ ?P |- keeps ?P getDatabase =>
             apply (di_getDatabase _ P H)
         | H : driver_invariant _ ?P |- keeps ?P Sqlite.getFirstAsync_count =>
             apply (di_count _ P H)
         | H : driver_invariant _ ?P |- keeps ?P Sqlite.getAllAsync_ordered =>
             apply (di_select _ P H)
         | H : driver_invariant _ ?P |- keeps ?P (Sqlite.runAsync_insert _ _ _ _) =>
             apply (di_insert _ P H)
         | H : driver_invariant _ ?P |- keeps ?P (Sqlite.runAsync_update _ _ _ _) =>
             apply (di_update _ P H)
         | H : driver_invariant _ ?P |- keeps ?P (Sqlite.runAsync_set_bought _ _) =>
             apply (di_bought _ P H)
         | H : driver_invariant _ ?P |- keeps ?P (Sqlite.runAsync_delete _) =>
             apply (di_delete _ P H)
         | H : driver_invariant _ ?P |- keeps ?P Sqlite.runAsync_delete_bought =>
             apply (di_delete_bought _ P H)
         | H : driver_invariant _ ?P |- keeps ?P Sqlite.runAsync_delete_all =>
             apply (di_delete_all _ P H)
         end.

Section Kept.

Variable ok : string -> JS.Number -> string -> Prop.
Variable P : World -> Prop.
Hypothesis HP : driver_invariant ok P.

Lemma keeps_seedSampleData : samples_ok ok -> keeps P seedSampleData.
Proof.
  intros Hs. unfold seedSampleData, seedSampleData_try. keeps_steps.
  destruct (_ =? 0); keeps_steps.
  unfold insert_sample. destruct x as [[nm q] cat]. keeps_steps.
  apply Hs. assumption.
Qed.

Lemma keeps_initDatabase :
  samples_ok ok -> keeps P Sqlite.execAsync_create -> keeps P initDatabase.
Proof.
  intros Hs Hc. unfold initDatabase, initDatabase_try. keeps_steps.
  - exact Hc.
  - apply keeps_seedSampleData, Hs.
Qed.

Lemma keeps_getAllItems : keeps P getAllItems.
Proof. unfold getAllItems, getAllItems_try. keeps_steps. Qed.

Lemma keeps_addItem nm q cat : ok nm q cat -> keeps P (addItem nm q cat).
Proof. intros Hok. unfold addItem, addItem_try. keeps_steps. exact Hok. Qed.

Lemma keeps_updateItem i nm q cat :
  ok nm q cat -> keeps P (updateItem i nm q cat).
Proof. intros Hok. unfold updateItem, updateItem_try. keeps_steps. exact Hok. Qed.

Lemma keeps_toggleBoughtStatus i b : keeps P (toggleBoughtStatus i b).
Proof. unfold toggleBoughtStatus, toggleBoughtStatus_try. keeps_steps. Qed.

Lemma keeps_deleteItem i : keeps P (deleteItem i).
Proof. unfold deleteItem, deleteItem_try. keeps_steps. Qed.

Lemma keeps_deleteAllBoughtItems : keeps P deleteAllBoughtItems.
Proof. unfold deleteAllBoughtItems, deleteAllBoughtItems_try. keeps_steps. Qed.

Lemma keeps_clearAllItems : keeps P clearAllItems.
Proof. unfold clearAllItems, clearAllItems_try. keeps_steps. Qed.

Lemma keeps_handleSave nm quantity cat editItem :
  (AddItemModal.validateForm nm = true ->
   ok (JS.trim nm) (AddItemModal.quantityNum quantity) (JS.trim cat)) ->
  keeps P (AddItemModal.handleSave nm quantity cat editItem).
Proof.
  intros Hok. unfold AddItemModal.handleSave.
  destruct (AddItemModal.validateForm nm); simpl; keeps_steps.
  destruct editItem as [it|]; keeps_steps.
  - apply keeps_updateItem, Hok. reflexivity.
  - apply keeps_addItem, Hok. reflexivity.
Qed.

Lemma keeps_call c :
  call_ok ok c ->
  (c = CallInit -> keeps P Sqlite.execAsync_create) -> keeps P (call c).
Proof.
  intros Hok Hc.
  destruct c; unfold call, discard; simpl in Hok; keeps_steps;
    auto using keeps_initDatabase, keeps_seedSampleData,
      keeps_getAllItems, keeps_addItem, keeps_updateItem,
      keeps_toggleBoughtStatus, keeps_deleteItem,
      keeps_deleteAllBoughtItems, keeps_clearAllItems, keeps_handleSave.
Qed.

Lemma keeps_session cs :
  Forall (call_ok ok) cs ->
  (In CallInit cs -> keeps P Sqlite.execAsync_create) -> keeps P (session cs).
Proof.
  intros Hok Hc. apply keeps_for_of. intros c Hin. apply keeps_call.
  - rewrite Forall_forall in Hok. apply Hok, Hin.
  - intros ->. exact (Hc Hin).
Qed.

End Kept.

(** Every call is fine when every value may be written. *)
Lemma call_ok_any (cs : list Call) : Forall (call_ok (fun _ _ _ => True)) cs.
Proof.
  apply Forall_forall. intros c _. destruct c; simpl; unfold samples_ok; auto.
Qed.

(** Properties of the table alone. *)
Lemma table_getDatabase (I : option Table -> Prop) :
  keeps (fun w => I (grocery_items w)) getDatabase.
Proof.
  intros w H. destruct w as [pw d p t f c n]; simpl in H.
  destruct pw, d, p as [[|e]|], f as [|[|] fs]; exact H.
Qed.

(** A statement keeps what its effect on a present table keeps. *)
Lemma table_statement {A} (I : option Table -> Prop)
      (run : Table -> Outcome (A * Table)) :
  (forall t a t', I (Some t) -> run t = Returned (a, t') -> I (Some t')) ->
  keeps (fun w => I (grocery_items w)) (Sqlite.statement run).
Proof.
  intros Hrun w H. destruct w as [pw d p [t|] f c n]; simpl in H;
    unfold world_after, Sqlite.statement, bind, Sqlite.next_fault, throw; simpl;
    destruct f as [|[|] fs]; simpl; try exact H;
    destruct (run t) as [[a t']|e] eqn:E; simpl; try exact H;
    exact (Hrun t a t' H E).
Qed.

Lemma table_create (I : option Table -> Prop) :
  (I None -> I (Some (mkTable [] 0))) ->
  keeps (fun w => I (grocery_items w)) Sqlite.execAsync_create.
Proof.
  intros Hc w H. destruct w as [pw d p [t|] f c n]; simpl in H;
    unfold world_after, Sqlite.execAsync_create, bind, Sqlite.next_fault, throw;
    simpl; destruct f as [|[|] fs]; simpl; auto.
Qed.

Lemma statement_invariant_driver ok (I : option Table -> Prop) :
  statement_invariant ok I -> driver_invariant ok (fun w => I (grocery_items w)).
Proof.
  intros HI. constructor.
  - intros w H. exact H.
  - apply table_getDatabase.
  - apply table_statement. intros t a t' Ht E. injection E as _ <-. exact Ht.
  - apply table_statement. intros t a t' Ht E. injection E as _ <-. exact Ht.
  - intros nm q cat now Hok. apply table_statement. intros t a t' Ht E.
    unfold Sqlite.insert in E.
    destruct (Sqlite.max_rowid <=? Sqlite.largest_rowid t) eqn:L; [discriminate|].
    injection E as _ <-. apply (inv_insert ok I HI); [exact Hok|exact Ht|].
    apply Z.leb_gt in L. exact L.
  - intros nm q cat i Hok. apply table_statement. intros t a t' Ht E.
    injection E as _ <-. apply (inv_update ok I HI); assumption.
  - intros b i. apply table_statement. intros t a t' Ht E.
    injection E as _ <-. apply (inv_bought ok I HI), Ht.
  - intros i. apply table_statement. intros t a t' Ht E.
    injection E as _ <-. apply (inv_delete ok I HI), Ht.
  - apply table_statement. intros t a t' Ht E.
    injection E as _ <-. apply (inv_delete_bought ok I HI), Ht.
  - apply table_statement. intros t a t' Ht E.
    injection E as _ <-. apply (inv_delete_all ok I HI), Ht.
Qed.

(* ===================================================================== *)
(** ** Initialising again                                                *)
(* ===================================================================== *)





(* ===================================================================== *)
(** ** Identifiers                                                       *)
(* ===================================================================== *)

(** Taking rows out keeps the remaining identifiers distinct. *)
Lemma distinct_ids_kept (keep : GroceryItem -> bool) (l : list GroceryItem) :
  NoDup (map id l) -> NoDup (map id (filter keep l)).
Proof.
  intros Hd. induction l as [|r l IH]; simpl in *; [exact Hd|].
  apply NoDup_cons_iff in Hd. destruct Hd as [Hr Hl].
  destruct (keep r); simpl; [|exact (IH Hl)].
  apply NoDup_cons; [|exact (IH Hl)].
  intros Hin. apply Hr. apply in_map_iff in Hin. destruct Hin as (y & Ey & Hy).
  apply in_map_iff. exists y. split; [exact Ey|].
  apply filter_In in Hy. tauto.
Qed.

Lemma NoDup_map_same {A B} (f : A -> B) (l : list A) (x y : A) :
  NoDup (map f l) -> In x l -> In y l -> f x = f y -> x = y.
Proof.
  induction l as [|z l IH]; simpl; intros H Hx Hy E; [contradiction|].
  inversion H as [|? ? Hz Hl]; subst.
  destruct Hx as [->|Hx], Hy as [->|Hy]; try reflexivity.
  - exfalso. apply Hz. rewrite E. apply in_map, Hy.
  - exfalso. apply Hz. rewrite <- E. apply in_map, Hx.
  - apply IH; assumption.
Qed.

Lemma update_fields_ids i nm q cat t :
  map id (rows (Sqlite.update_fields i nm q cat t)) = map id (rows t).
Proof.
  simpl. rewrite map_map. apply map_ext. intros r.
  destruct (id r =? i); reflexivity.
Qed.

Lemma update_bought_ids i b t :
  map id (rows (Sqlite.update_bought i b t)) = map id (rows t).
Proof.
  simpl. rewrite map_map. apply map_ext. intros r.
  destruct (id r =? i); reflexivity.
Qed.

Lemma well_formed_rows (t : Table) (l : list GroceryItem) :
  well_formed (Some t) ->
  map id l = map id (rows t) ->
  well_formed (Some (mkTable l (sqlite_sequence t))).
Proof.
  intros [Hn Hf] E. split; simpl.
  - rewrite E. exact Hn.
  - apply Forall_forall. intros r Hr.
    assert (Hin : In (id r) (map id (rows t))) by (rewrite <- E; apply in_map, Hr).
    apply in_map_iff in Hin. destruct Hin as (r' & Er & Hr').
    rewrite Forall_forall in Hf. specialize (Hf r' Hr'). rewrite <- Er. exact Hf.
Qed.

Lemma well_formed_filter (t : Table) (p : GroceryItem -> bool) :
  well_formed (Some t) ->
  well_formed (Some (mkTable (filter p (rows t)) (sqlite_sequence t))).
Proof.
  intros [Hn Hf]. split; simpl.
  - apply distinct_ids_kept, Hn.
  - apply Forall_forall. intros r Hr. apply filter_In in Hr.
    rewrite Forall_forall in Hf. apply Hf. tauto.
Qed.

Lemma well_formed_largest (t : Table) :
  well_formed (Some t) -> Z.max (sqlite_sequence t) 0 = Sqlite.largest_rowid t.
Proof.
  intros [_ Hf]. unfold Sqlite.largest_rowid.
  assert (H : Sqlite.largest_id (rows t) <= Z.max (sqlite_sequence t) 0).
  { induction (rows t) as [|r l IH]; simpl; [lia|].
    inversion Hf; subst. specialize (IH H2). lia. }
  pose proof (largest_id_nonneg (rows t)). lia.
Qed.

Lemma well_formed_new_row nm q cat now t :
  well_formed (Some t) ->
  well_formed (Some (Sqlite.with_new_row nm q cat now t)).
Proof.
  intros [Hn Hf]. split; simpl.
  - rewrite map_app. simpl.
    apply (Permutation_NoDup (Permutation_cons_append _ _)).
    constructor; [|exact Hn].
    intros Hin. apply in_map_iff in Hin. destruct Hin as (r & Er & Hr).
    pose proof (largest_rowid_upper t r Hr). lia.
  - apply Forall_app. split.
    + eapply Forall_impl; [|exact Hf]. simpl. intros r Hr.
      unfold Sqlite.largest_rowid. lia.
    + constructor; [|constructor]. simpl.
      pose proof (largest_id_nonneg (rows t)). unfold Sqlite.largest_rowid. lia.
Qed.

(** The identifiers stay distinct, and the counter never goes below a
    level [b] it has reached. *)
Lemma well_formed_invariant (b : Z) :
  statement_invariant (fun _ _ _ => True)
                      (fun d => well_formed d /\ b <= watermark d).
Proof.
  constructor.
  - intros nm q cat now t _ [Hw Hb] _. split; [apply well_formed_new_row, Hw|].
    simpl in *. unfold Sqlite.largest_rowid. lia.
  - intros i nm q cat t _ [Hw Hb]. split; [|exact Hb].
    apply (well_formed_rows t); [exact Hw|apply update_fields_ids].
  - intros i v t [Hw Hb]. split; [|exact Hb].
    apply (well_formed_rows t); [exact Hw|apply update_bought_ids].
  - intros i t [Hw Hb]. split; [|exact Hb]. apply well_formed_filter, Hw.
  - intros t [Hw Hb]. split; [|exact Hb]. apply well_formed_filter, Hw.
  - intros t [Hw Hb]. split; [|exact Hb]. split; simpl; constructor.
Qed.

Lemma discard_returns {A} (m : Async A) (w : World) :
  (exists a, result_of m w = Returned a) ->
  result_of (discard m) w = Returned tt.
Proof.
  unfold result_of, discard, bind, ret. intros [a Ha].
  destruct (m w) as [[x|e] w1]; simpl in *; [reflexivity|discriminate].
Qed.

(** No call of the presentation layer ends in an exception. *)
Lemma call_returns (c : Call) (w : World) : result_of (call c) w = Returned tt.
Proof.
  destruct c as [ | | | | | | | | |nm qty cat editItem]; simpl;
    try apply seedSampleData_returns; apply discard_returns;
    try (apply try_catch_caught).
  destruct (handleSave_never_crashes nm qty cat editItem w) as (s & Hs & _).
  exists s. exact Hs.
Qed.

Lemma session_returns (cs : list Call) :
  forall w, result_of (session cs) w = Returned tt.
Proof.
  induction cs as [|c cs IH]; intros w; [reflexivity|].
  unfold session, result_of. rewrite for_of_cons.
  pose proof (call_returns c w) as Hc. unfold result_of in Hc.
  destruct (call c w) as [r w1]. simpl in Hc. subst r. apply IH.
Qed.

(** X1. Whatever calls the presentation layer makes, in whatever order
    and whatever store faults occur, the session runs to its end and
    the identifiers of the table stay pairwise distinct, positive and
    not beyond the AUTOINCREMENT counter: two rows with the same id are
    the same row. *)
Theorem session_keeps_ids_unique (cs : list Call) (w : World) :
  well_formed (grocery_items w) ->
  result_of (session cs) w = Returned tt /\
  well_formed (table_after (session cs) w) /\
  (forall t r1 r2,
     table_after (session cs) w = Some t ->
     In r1 (rows t) -> In r2 (rows t) -> id r1 = id r2 -> r1 = r2).
Proof.
  intros Hw. split; [apply session_returns|].
  assert (H : well_formed (table_after (session cs) w) /\
              watermark (grocery_items w) <= watermark (table_after (session cs) w)).
  { apply (keeps_session _ _
             (statement_invariant_driver _ _
                (well_formed_invariant (watermark (grocery_items w)))) cs).
    - apply call_ok_any.
    - intros _.
      apply (table_create
               (fun d => well_formed d /\
                         watermark (grocery_items w) <= watermark d)).
      intros [_ H0]. split; [|exact H0]. split; constructor.
    - split; [exact Hw|lia]. }
  split; [exact (proj1 H)|].
  intros t r1 r2 Et H1 H2 E. destruct H as [Hwf _]. rewrite Et in Hwf.
  exact (NoDup_map_same id (rows t) r1 r2 (proj1 Hwf) H1 H2 E).
Qed.

(** X2. Identifiers are never used again: after any session of calls,
    with deletions or not, an addItem that succeeds returns an
    identifier larger than the counter had reached before the session
    and so larger than every identifier the table held then. *)
Theorem ids_never_reused (cs : list Call) (nm : string) (q : JS.Number) (cat : string)
        (w : World) (t : Table) (i : Z) :
  grocery_items w = Some t -> well_formed (Some t) ->
  result_of (let* _ := session cs in addItem nm q cat) w = Returned (Some i) ->
  sqlite_sequence t < i /\ forall r, In r (rows t) -> id r < i.
Proof.
  intros Et Hw Hres.
  assert (H : well_formed (table_after (session cs) w) /\
              sqlite_sequence t <= watermark (table_after (session cs) w)).
  { apply (keeps_session _ _
             (statement_invariant_driver _ _
                (well_formed_invariant (sqlite_sequence t))) cs).
    - apply call_ok_any.
    - intros _.
      apply (table_create
               (fun d => well_formed d /\ sqlite_sequence t <= watermark d)).
      intros [_ H0]. split; [|exact H0]. split; constructor.
    - rewrite Et. split; [exact Hw|simpl; lia]. }
  assert (Hi : sqlite_sequence t < i).
  { unfold result_of, bind in Hres. unfold table_after in H.
    pose proof (session_returns cs w) as Hs. unfold result_of in Hs.
    destruct (session cs w) as [r w1]. simpl in Hs, H. subst r.
    destruct (addItem_cases nm q cat w1) as [(t1 & Et1 & _ & Hr1 & _)|[Hr1 _]];
      unfold result_of in Hr1; rewrite Hr1 in Hres; [|discriminate].
    injection Hres as <-. rewrite Et1 in H. simpl in H.
    unfold Sqlite.largest_rowid. lia. }
  split; [exact Hi|]. intros r Hr. destruct Hw as [_ Hf].
  rewrite Forall_forall in Hf. specialize (Hf r Hr). lia.
Qed.

Lemma filter_all {A} (p : A -> bool) (l : list A) :
  (forall x, In x l -> p x = true) -> filter p l = l.
Proof.
  induction l as [|x l IH]; simpl; intros H; [reflexivity|].
  rewrite (H x (or_introl eq_refl)). f_equal. apply IH. intros y Hy.
  apply H. now right.
Qed.

(** X3. When deleteItem returns true on a table with distinct
    identifiers: a row with that id is taken out and the rows before and
    after it stay as they are, in their order; when no row has the id,
    the table is unchanged.  The counter is kept either way. *)
Theorem deleteItem_removes_one_row (w : World) (t : Table) (i : Z) :
  grocery_items w = Some t -> well_formed (Some t) ->
  result_of (deleteItem i) w = Returned true ->
  exists t',
    table_after (deleteItem i) w = Some t' /\
    sqlite_sequence t' = sqlite_sequence t /\
    ((forall r, In r (rows t) -> id r <> i) -> t' = t) /\
    (forall r, In r (rows t) -> id r = i ->
       exists l1 l2, rows t = l1 ++ r :: l2 /\ rows t' = l1 ++ l2).
Proof.
  intros Et [Hn _] Hres. rewrite deleteItem_write in *.
  destruct (write_accessor_true _ _ Hres) as (t0 & Et0 & Ht).
  rewrite Et in Et0. injection Et0 as <-.
  exists (Sqlite.delete_id i t). repeat split; [exact Ht| |].
  - intros Habs. destruct t as [l s]. unfold Sqlite.delete_id. simpl in *.
    f_equal. apply filter_all. intros r Hr.
    apply negb_true_iff, Z.eqb_neq, Habs, Hr.
  - intros r Hr Hi. destruct (in_split _ _ Hr) as (l1 & l2 & E).
    exists l1, l2. split; [exact E|]. simpl. rewrite E in *.
    rewrite map_app in Hn. simpl in Hn. apply NoDup_remove_2 in Hn.
    rewrite filter_app. simpl. rewrite (proj2 (Z.eqb_eq _ _) Hi). simpl.
    f_equal; apply filter_all; intros x Hx; apply negb_true_iff, Z.eqb_neq;
      intros Ex; apply Hn, in_or_app; [left|right];
      apply in_map_iff; exists x; (split; [congruence|exact Hx]).
Qed.

Lemma restart_calm (w : World) :
  faults w = [] ->
  calm_run restart w tt (grocery_items w) (reads w).
Proof. intros Ef. repeat split. exact Ef. Qed.

(** A process start forgets a failed opening. *)
Lemma restart_forgets (w : World) : open_failed (process_start w) = false.
Proof. reflexivity. Qed.

(** X4. Seeding looks at the table, not at whether the application ran
    before: with no store fault and no failed opening remembered, once
    clearAllItems has emptied the table, the initDatabase of the next
    process start inserts the three sample rows again, under
    identifiers that continue after the counter. *)
Theorem samples_return_after_clearing (w : World) (t : Table) :
  faults w = [] -> open_failed w = false -> grocery_items w = Some t ->
  Z.max (sqlite_sequence t) 0 + 3 <= Sqlite.max_rowid ->
  result_of clear_and_start_again w = Returned true /\
  table_after clear_and_start_again w =
    Some (mkTable (sample_rows (Z.max (sqlite_sequence t) 0) (clock w) (reads w))
                  (Z.max (sqlite_sequence t) 0 + 3)).
Proof.
  intros Ef0 Eo Et Hroom. pose proof (conj Ef0 Eo : no_fault w) as Ef.
  assert (H : calm_run clear_and_start_again w true
                (Some (mkTable
                         (sample_rows (Z.max (sqlite_sequence t) 0) (clock w) (reads w))
                         (Z.max (sqlite_sequence t) 0 + 3)))
                (S (S (S (reads w))))).
  { unfold clear_and_start_again. rewrite clearAllItems_write.
    eapply calm_run_bind; [apply write_accessor_calm; eassumption|].
    intros w1 Ef1 Et1 Ec1 En1.
    eapply calm_run_bind; [apply restart_calm, (proj1 Ef1)|].
    intros w2 Ef2 Et2 Ec2 En2. rewrite Et1 in Et2.
    pose proof (initDatabase_seeds w2 Ef2) as Hs. rewrite Et2 in Hs.
    simpl in Hs. unfold Sqlite.largest_rowid in Hs. simpl in Hs.
    rewrite Ec2, Ec1, En2, En1 in Hs. apply Hs; [reflexivity|exact Hroom]. }
  split; [exact (proj1 H)|exact (proj1 (proj2 H))].
Qed.

Lemma order_by_newest (l : list GroceryItem) (r : GroceryItem) :
  (forall x, In x l -> created_at x < created_at r) ->
  Sqlite.order_by_created_at_desc (l ++ [r]) =
  r :: Sqlite.order_by_created_at_desc l.
Proof.
  induction l as [|x l IH]; simpl; intros H; [reflexivity|].
  rewrite IH by (intros y Hy; apply H; now right). simpl.
  rewrite (proj2 (Z.ltb_lt _ _) (H x (or_introl eq_refl))). reflexivity.
Qed.

(** X5. With no store fault and no failed opening remembered, an item
    added at a time later than the created_at of every stored row is
    the first row of the next listing, followed by the rows the table
    held, newest first. *)
Theorem new_item_listed_first (w : World) (t : Table) (nm : string) (q : JS.Number)
        (cat : string) :
  faults w = [] -> open_failed w = false -> grocery_items w = Some t ->
  Sqlite.largest_rowid t < Sqlite.max_rowid ->
  (forall r, In r (rows t) -> created_at r < clock w (reads w)) ->
  exists l,
    result_of (add_then_list nm q cat) w =
      Returned (mkItem (Sqlite.largest_rowid t + 1) nm q cat 0 (clock w (reads w))
                :: l) /\
    Permutation (rows t) l /\
    StronglySorted newest_first l.
Proof.
  intros Ef0 Eo Et Hr Hlate. pose proof (conj Ef0 Eo : no_fault w) as Ef.
  exists (Sqlite.order_by_created_at_desc (rows t)).
  split; [|split; [apply order_by_perm|apply order_by_sorted]].
  assert (H : calm_run (add_then_list nm q cat) w
                (Sqlite.select_all
                   (Sqlite.with_new_row nm q cat (clock w (reads w)) t))
                (Some (Sqlite.with_new_row nm q cat (clock w (reads w)) t))
                (S (reads w))).
  { unfold add_then_list.
    eapply calm_run_bind; [apply addItem_calm; eassumption|].
    intros w1 Ef1 Et1 Ec1 En1.
    destruct (getAllItems_calm w1 _ Ef1 Et1) as [_ (H1 & H2 & H3 & H4 & H5)].
    no_fault_parts. repeat split; congruence. }
  rewrite (proj1 H). unfold Sqlite.select_all. rewrite with_new_row_rows.
  rewrite order_by_newest; [reflexivity|]. exact Hlate.
Qed.

Lemma no_table_invariant :
  statement_invariant (fun _ _ _ => True) (fun d => d = None).
Proof. constructor; intros; discriminate. Qed.

Lemma some_table_invariant :
  statement_invariant (fun _ _ _ => True) (fun d => d <> None).
Proof. constructor; intros; discriminate. Qed.

(** X6. The table is created by initDatabase only and is never
    dropped: a session without initDatabase on a database that has no
    table leaves it without one, whatever it calls; and once the table
    exists it exists after every session. *)
Theorem table_created_only_by_initDatabase (cs : list Call) (w : World) :
  (~ In CallInit cs -> grocery_items w = None ->
   table_after (session cs) w = None) /\
  (grocery_items w <> None -> table_after (session cs) w <> None).
Proof.
  split.
  - intros Hno Et.
    apply (keeps_session _ _
             (statement_invariant_driver _ _ no_table_invariant) cs);
      [apply call_ok_any|intros Hin; contradiction|exact Et].
  - intros Et.
    apply (keeps_session _ _
             (statement_invariant_driver _ _ some_table_invariant) cs);
      [apply call_ok_any| |exact Et].
    intros _. apply (table_create (fun d => d <> None)). intros _. discriminate.
Qed.

(* ===================================================================== *)
(** ** Trimming                                                          *)
(* ===================================================================== *)

Lemma strip_space_shorter s s' :
  JS.strip_space s = Some s' -> (String.length s' < String.length s)%nat.
Proof.
  unfold JS.strip_space.
  destruct s as [|c [|d [|e s3]]]; simpl;
    repeat match goal with
           | |- context [if ?b then _ else _] => destruct b
           end;
    intros H; try discriminate; injection H as <-; simpl; lia.
Qed.

(** Stripping looks at the first code point only. *)
Lemma strip_space_app s s' r :
  JS.strip_space s = Some s' -> JS.strip_space (s ++ r)%string = Some (s' ++ r)%string.
Proof.
  unfold JS.strip_space.
  destruct s as [|c [|d [|e s3]]]; simpl;
    repeat match goal with
           | |- context [if ?b then _ else _] => destruct b
           end;
    intros H; try discriminate; injection H as <-; try reflexivity.
Qed.

Lemma trimStart_fuel_stripped n : forall s,
  (String.length s <= n)%nat -> JS.strip_space (JS.trimStart_fuel n s) = None.
Proof.
  induction n as [|n IH]; intros s Hn; simpl.
  - destruct s; [reflexivity|simpl in Hn; lia].
  - destruct (JS.strip_space s) as [s'|] eqn:E; [|exact E].
    apply IH. apply strip_space_shorter in E. lia.
Qed.

Lemma trimStart_stripped s : JS.strip_space (JS.trimStart s) = None.
Proof. apply trimStart_fuel_stripped. lia. Qed.

Lemma trimStart_fixed s : JS.strip_space s = None -> JS.trimStart s = s.
Proof.
  intros E. unfold JS.trimStart. destruct (String.length s); simpl;
    [reflexivity|rewrite E; reflexivity].
Qed.

Lemma trimStart_fuel_spaces n : forall s,
  (String.length s <= n)%nat ->
  JS.trimStart_fuel n s = EmptyString -> Spaces s.
Proof.
  induction n as [|n IH]; intros s Hn; simpl.
  - intros ->. constructor.
  - destruct (JS.strip_space s) as [s'|] eqn:E.
    + intros H. apply (Spaces_strip s s' E). apply IH; [|exact H].
      apply strip_space_shorter in E. lia.
    + intros ->. constructor.
Qed.

Lemma spaces_trimStart_fuel s :
  Spaces s -> forall n, (String.length s <= n)%nat ->
  JS.trimStart_fuel n s = EmptyString.
Proof.
  induction 1 as [|s s' E Hs IH]; intros n Hn.
  - destruct n; reflexivity.
  - pose proof (strip_space_shorter _ _ E) as Hl.
    destruct n as [|n]; [lia|]. simpl. rewrite E. apply IH. lia.
Qed.

Lemma all_space_spaces s : JS.all_space s = true <-> Spaces s.
Proof.
  unfold JS.all_space, JS.trimStart. split.
  - destruct (JS.trimStart_fuel (String.length s) s) eqn:E; [|discriminate].
    intros _. apply (trimStart_fuel_spaces _ s (le_n _) E).
  - intros H. rewrite (spaces_trimStart_fuel s H _ (le_n _)). reflexivity.
Qed.

Lemma spaces_app p r : Spaces p -> Spaces r -> Spaces (p ++ r)%string.
Proof.
  induction 1 as [|s s' E Hs IH]; intros Hr; [exact Hr|].
  apply (Spaces_strip _ (s' ++ r)%string); [apply strip_space_app, E|apply IH, Hr].
Qed.

(** trimEnd cuts off a suffix made of white space. *)
Lemma trimEnd_suffix s : exists r, s = (JS.trimEnd s ++ r)%string /\ Spaces r.
Proof.
  induction s as [|c s IH].
  - exists EmptyString. split; [reflexivity|constructor].
  - simpl. destruct (JS.all_space (String c s)) eqn:E.
    + exists (String c s). split; [reflexivity|apply all_space_spaces, E].
    + destruct IH as (r & Er & Hr). exists r. split; [|exact Hr].
      simpl. rewrite <- Er. reflexivity.
Qed.

Lemma trimEnd_idempotent s : JS.trimEnd (JS.trimEnd s) = JS.trimEnd s.
Proof.
  induction s as [|c s IH]; [reflexivity|].
  simpl. destruct (JS.all_space (String c s)) eqn:E; [reflexivity|].
  simpl. destruct (JS.all_space (String c (JS.trimEnd s))) eqn:E'.
  - exfalso. destruct (trimEnd_suffix s) as (r & Er & Hr).
    apply all_space_spaces in E'.
    pose proof (spaces_app _ _ E' Hr) as H. simpl in H. rewrite <- Er in H.
    apply all_space_spaces in H. congruence.
  - rewrite IH. reflexivity.
Qed.

Lemma trimEnd_stripped s :
  JS.strip_space s = None -> JS.strip_space (JS.trimEnd s) = None.
Proof.
  intros E. destruct (JS.strip_space (JS.trimEnd s)) as [s'|] eqn:E';
    [|reflexivity].
  destruct (trimEnd_suffix s) as (r & Er & _).
  apply (strip_space_app _ _ r) in E'. rewrite <- Er in E'. congruence.
Qed.

(** Trimming a trimmed string changes nothing. *)
Lemma trim_idempotent s : JS.trim (JS.trim s) = JS.trim s.
Proof.
  unfold JS.trim.
  rewrite (trimStart_fixed (JS.trimEnd (JS.trimStart s))).
  - apply trimEnd_idempotent.
  - apply trimEnd_stripped, trimStart_stripped.
Qed.

(** A trimmed string neither starts nor ends with white space. *)
Lemma trim_no_space_around s :
  JS.strip_space (JS.trim s) = None /\
  (forall p r, JS.trim s = (p ++ r)%string -> Spaces r -> r = EmptyString).
Proof.
  split; [apply trimEnd_stripped, trimStart_stripped|].
  unfold JS.trim. generalize (JS.trimStart s). clear s. intros s.
  induction s as [|c s IH]; intros p r.
  - simpl. destruct p; simpl; [intros <-; reflexivity|discriminate].
  - simpl. destruct (JS.all_space (String c s)) eqn:E.
    + destruct p; simpl; [intros <-; reflexivity|discriminate].
    + destruct p as [|c' p]; simpl.
      * intros <- Hr. exfalso.
        destruct (trimEnd_suffix s) as (r' & Er & Hr').
        pose proof (spaces_app _ _ Hr Hr') as H. simpl in H. rewrite <- Er in H.
        apply all_space_spaces in H. congruence.
      * intros H Hr. injection H as _ H. exact (IH p r H Hr).
Qed.

(* ===================================================================== *)
(** ** What the form lets into the table                                 *)
(* ===================================================================== *)

Lemma quantityNum_not_zero quantity : AddItemModal.quantityNum quantity <> 0.
Proof.
  unfold AddItemModal.quantityNum, JS.or_else.
  destruct (JS.parseInt quantity) as [[n|b]|]; try discriminate.
  destruct (Z.eqb_spec n 0) as [|Hn]; [discriminate|].
  intros E. injection E as E. exact (Hn E).
Qed.

Lemma validateForm_name nm :
  AddItemModal.validateForm nm = true -> JS.trim nm <> EmptyString.
Proof.
  unfold AddItemModal.validateForm. intros H E. rewrite E in H. discriminate.
Qed.

Lemma samples_from_form : samples_ok from_form.
Proof.
  intros nm q cat Hin. simpl in Hin.
  destruct Hin as [E|[E|[E|[]]]]; injection E as <- <- <-;
    (repeat split; discriminate).
Qed.

Lemma form_clean_invariant : statement_invariant from_form form_clean.
Proof.
  constructor; simpl.
  - intros nm q cat now t Hok Ht _. apply Forall_app. split; [exact Ht|].
    constructor; [exact Hok|constructor].
  - intros i nm q cat t Hok Ht. apply Forall_map.
    eapply Forall_impl; [|exact Ht]. intros r Hr.
    destruct (id r =? i); [exact Hok|exact Hr].
  - intros i b t Ht. apply Forall_map.
    eapply Forall_impl; [|exact Ht]. intros r Hr.
    destruct (id r =? i); exact Hr.
  - intros i t Ht. apply Forall_forall. intros r Hr. apply filter_In in Hr.
    rewrite Forall_forall in Ht. apply Ht. tauto.
  - intros t Ht. apply Forall_forall. intros r Hr. apply filter_In in Hr.
    rewrite Forall_forall in Ht. apply Ht. tauto.
  - intros t _. constructor.
Qed.

Lemma screen_call_ok c : screen_call c -> call_ok from_form c.
Proof.
  destruct c; simpl; try contradiction; intros _;
    try exact samples_from_form; try exact I.
  intros Hv. repeat split.
  - apply trim_idempotent.
  - apply validateForm_name, Hv.
  - apply quantityNum_not_zero.
  - apply trim_idempotent.
Qed.

(** X7. As long as addItem and updateItem are reached through the save
    handler of the form only, whatever else is called and whatever
    faults occur, every row of the table has a name that is not empty
    and carries no white space around it, a quantity that is not 0, and
    a category with no white space around it. *)
Theorem screens_store_clean_rows (cs : list Call) (w : World) :
  Forall screen_call cs ->
  form_clean (grocery_items w) ->
  form_clean (table_after (session cs) w) /\
  (forall t r, table_after (session cs) w = Some t -> In r (rows t) ->
     name r <> EmptyString /\ quantity r <> 0 /\
     JS.strip_space (name r) = None /\
     (forall p s, name r = (p ++ s)%string -> Spaces s -> s = EmptyString)).
Proof.
  intros Hcs Hw.
  assert (H : form_clean (table_after (session cs) w)).
  { apply (keeps_session _ _
             (statement_invariant_driver _ _ form_clean_invariant) cs).
    - eapply Forall_impl; [|exact Hcs]. exact screen_call_ok.
    - intros _. apply (table_create form_clean). intros _. constructor.
    - exact Hw. }
  split; [exact H|]. intros t r Et Hr. rewrite Et in H. simpl in H.
  rewrite Forall_forall in H. destruct (H r Hr) as (Htrim & Hne & Hq & _).
  repeat split; try assumption; rewrite <- Htrim; apply trim_no_space_around.
Qed.

(* ===================================================================== *)
(** ** Quantities through the form                                       *)
(* ===================================================================== *)

Section Quantities.

Local Arguments Z.add _ _ : simpl never.
Local Arguments Z.sub _ _ : simpl never.
Local Arguments Z.mul _ _ : simpl never.
Local Arguments Z.div _ _ : simpl never.
Local Arguments Z.modulo _ _ : simpl never.
Local Arguments Z.pow _ _ : simpl never.
Local Arguments Z.leb _ _ : simpl never.
Local Arguments Z.ltb _ _ : simpl never.
Local Arguments Z.eqb _ _ : simpl never.

Lemma code_digit_char d : 0 <= d <= 9 -> JS.code (digit_char d) = 48 + d.
Proof.
  intros H. unfold JS.code, digit_char.
  rewrite N_ascii_embedding; [lia|].
  apply N2Z.inj_lt. rewrite Z2N.id by lia. change (Z.of_N 256) with 256. lia.
Qed.

Lemma digit_value_digit_char d :
  0 <= d <= 9 -> JS.digit_value 10 (digit_char d) = Some d.
Proof.
  intros H. unfold JS.digit_value. rewrite (code_digit_char d H). cbv zeta.
  replace (48 <=? 48 + d) with true by (symmetry; apply Z.leb_le; lia).
  replace (48 + d <=? 57) with true by (symmetry; apply Z.leb_le; lia).
  simpl. replace (48 + d - 48) with d by lia.
  replace (d <? 10) with true by (symmetry; apply Z.ltb_lt; lia). reflexivity.
Qed.

(** Reading back the digits just written. *)
Lemma digits_decimal_fuel fuel : forall n acc a,
  0 <= n < 10 ^ Z.of_nat (S fuel) ->
  exists k, 0 < k /\
    JS.digits 10 a (decimal_fuel (S fuel) n acc) =
    JS.digits 10
      (Some (match a with Some x => x | None => 0 end * 10 ^ k + n)) acc.
Proof.
  induction fuel as [|fuel IH]; intros n acc a Hn;
    simpl decimal_fuel; destruct (Z.ltb_spec n 10) as [Hs|Hs].
  - exists 1. split; [lia|]. simpl JS.digits.
    rewrite Z.mod_small by lia. rewrite digit_value_digit_char by lia.
    destruct a; f_equal; f_equal; lia.
  - change (10 ^ Z.of_nat 1) with 10 in Hn. lia.
  - exists 1. split; [lia|]. simpl JS.digits.
    rewrite Z.mod_small by lia. rewrite digit_value_digit_char by lia.
    destruct a; f_equal; f_equal; lia.
  - assert (Hq : 0 <= n / 10 < 10 ^ Z.of_nat (S fuel)).
    { split; [apply Z.div_pos; lia|].
      apply Z.div_lt_upper_bound; [lia|].
      rewrite (Nat2Z.inj_succ (S fuel)), Z.pow_succ_r in Hn by lia. lia. }
    destruct (IH (n / 10) (String (digit_char (n mod 10)) acc) a Hq)
      as (k & Hk & E).
    exists (k + 1). split; [lia|].
    change (if n / 10 <? 10
            then String (digit_char ((n / 10) mod 10))
                        (String (digit_char (n mod 10)) acc)
            else decimal_fuel fuel (n / 10 / 10)
                   (String (digit_char ((n / 10) mod 10))
                           (String (digit_char (n mod 10)) acc)))
      with (decimal_fuel (S fuel) (n / 10) (String (digit_char (n mod 10)) acc)).
    rewrite E. simpl JS.digits.
    pose proof (Z.mod_pos_bound n 10 ltac:(lia)) as Hm.
    rewrite digit_value_digit_char by lia.
    f_equal. f_equal. rewrite Z.pow_add_r by lia.
    pose proof (Z.div_mod n 10 ltac:(lia)). lia.
Qed.

Lemma decimal_fuel_enough n :
  0 <= n -> n < 10 ^ Z.of_nat (S (Z.to_nat (Z.log2 n))).
Proof.
  intros Hn. rewrite Nat2Z.inj_succ, Z2Nat.id by apply Z.log2_nonneg.
  destruct (Z.eq_dec n 0) as [->|Hz]; [simpl; lia|].
  pose proof (Z.log2_spec n ltac:(lia)) as [_ Hu].
  assert (2 ^ Z.succ (Z.log2 n) <= 10 ^ Z.succ (Z.log2 n)).
  { apply Z.pow_le_mono_l. lia. }
  lia.
Qed.

Lemma digits_decimal n :
  0 <= n -> JS.digits 10 None (decimal n) = Some n.
Proof.
  intros Hn. unfold decimal.
  destruct (digits_decimal_fuel _ n EmptyString None
              (conj Hn (decimal_fuel_enough n Hn))) as (k & _ & E).
  rewrite E. simpl. f_equal.
Qed.

Lemma decimal_fuel_all_digits fuel : forall n acc,
  0 <= n -> all_digits acc = true -> all_digits (decimal_fuel fuel n acc) = true.
Proof.
  induction fuel as [|fuel IH]; intros n acc Hn Hacc; [exact Hacc|].
  simpl decimal_fuel.
  pose proof (Z.mod_pos_bound n 10 ltac:(lia)) as Hm.
  assert (Hd : all_digits (String (digit_char (n mod 10)) acc) = true).
  { simpl. rewrite code_digit_char by lia. rewrite Hacc.
    replace (48 <=? 48 + n mod 10) with true by (symmetry; apply Z.leb_le; lia).
    replace (48 + n mod 10 <=? 57) with true by (symmetry; apply Z.leb_le; lia).
    reflexivity. }
  destruct (n <? 10); [exact Hd|].
  apply IH; [apply Z.div_pos; lia|exact Hd].
Qed.

Lemma decimal_fuel_not_empty fuel n acc :
  decimal_fuel (S fuel) n acc <> EmptyString.
Proof.
  revert n acc. induction fuel as [|fuel IH]; intros n acc; simpl.
  - destruct (n <? 10); discriminate.
  - destruct (n <? 10); [discriminate|]. apply (IH (n / 10)).
Qed.

(** The digits of a number: a first digit, then digits. *)
Lemma decimal_shape n :
  0 <= n ->
  exists c s, decimal n = String c s /\ 48 <= JS.code c <= 57 /\
              all_digits s = true.
Proof.
  intros Hn. unfold decimal.
  pose proof (decimal_fuel_all_digits (S (Z.to_nat (Z.log2 n))) n EmptyString
                Hn eq_refl) as Hd.
  pose proof (decimal_fuel_not_empty (Z.to_nat (Z.log2 n)) n EmptyString) as Hne.
  destruct (decimal_fuel (S (Z.to_nat (Z.log2 n))) n EmptyString) as [|c s];
    [contradiction|].
  exists c, s. simpl in Hd. apply andb_true_iff in Hd. destruct Hd as [Hc Hs].
  apply andb_true_iff in Hc. destruct Hc as [H1 H2].
  apply Z.leb_le in H1. apply Z.leb_le in H2. repeat split; assumption.
Qed.

Ltac decide_codes :=
  repeat match goal with
         | |- context [Z.eqb (JS.code ?c) ?k] =>
             destruct (Z.eqb_spec (JS.code c) k); try lia
         | |- context [Z.leb ?a ?b] => destruct (Z.leb_spec a b); try lia
         end.

(** White space is neither a digit nor a sign. *)
Lemma strip_space_visible c s :
  33 <= JS.code c <= 127 -> JS.strip_space (String c s) = None.
Proof.
  intros Hc. unfold JS.strip_space.
  destruct s as [|d [|e s3]]; decide_codes; reflexivity.
Qed.

Lemma digit_value_zero : JS.digit_value 10 "0"%char = Some 0.
Proof. reflexivity. Qed.

Lemma digits_zeros j : forall v,
  JS.digits 10 (Some v) (zeros j) = Some (v * 10 ^ Z.of_nat j).
Proof.
  induction j as [|j IH]; intros v.
  - simpl. f_equal. change (10 ^ Z.of_nat 0) with 1. lia.
  - cbn [zeros JS.digits]. rewrite digit_value_zero. rewrite IH.
    f_equal. rewrite Nat2Z.inj_succ, Z.pow_succ_r by lia. lia.
Qed.

Lemma all_digits_zeros j : all_digits (zeros j) = true.
Proof. induction j as [|j IH]; [reflexivity|simpl; exact IH]. Qed.

(** The digits of [n] in front of digits: a first digit, then digits,
    and read back they continue with what follows. *)
Lemma decimal_before_shape n acc :
  0 <= n -> all_digits acc = true ->
  exists c s, decimal_before n acc = String c s /\ 48 <= JS.code c <= 57 /\
              all_digits s = true /\
              JS.digits 10 None (String c s) = JS.digits 10 (Some n) acc.
Proof.
  intros Hn Hacc. unfold decimal_before.
  pose proof (decimal_fuel_all_digits (S (Z.to_nat (Z.log2 n))) n acc Hn Hacc) as Hd.
  pose proof (decimal_fuel_not_empty (Z.to_nat (Z.log2 n)) n acc) as Hne.
  destruct (digits_decimal_fuel _ n acc None
              (conj Hn (decimal_fuel_enough n Hn))) as (k & _ & E).
  destruct (decimal_fuel (S (Z.to_nat (Z.log2 n))) n acc) as [|c s];
    [contradiction|].
  exists c, s. simpl in Hd. apply andb_true_iff in Hd. destruct Hd as [Hc Hs].
  apply andb_true_iff in Hc. destruct Hc as [H1 H2].
  apply Z.leb_le in H1. apply Z.leb_le in H2.
  repeat split; assumption.
Qed.

(** parseInt on a string of decimal digits, with or without a minus
    sign in front. *)
Lemma parseInt_digit_string c s v :
  48 <= JS.code c <= 57 -> all_digits s = true ->
  JS.digits 10 None (String c s) = Some v ->
  JS.parseInt (String c s) = Some (JS.to_Number v) /\
  JS.parseInt (String "-" (String c s)) = Some (JS.to_Number (- v)).
Proof.
  intros Hc Hs Hd.
  assert (Hx : (let '(radix, s3) :=
                  match String c s with
                  | String c0 (String x r) =>
                      if (JS.code c0 =? 48) && ((JS.code x =? 120) || (JS.code x =? 88))
                      then (16, r) else (10, String c s)
                  | _ => (10, String c s)
                  end in
                JS.digits radix None s3) = Some v).
  { destruct s as [|x r]; [exact Hd|].
    simpl in Hs. apply andb_true_iff in Hs. destruct Hs as [Hx _].
    apply andb_true_iff in Hx. destruct Hx as [H1 H2].
    apply Z.leb_le in H1. apply Z.leb_le in H2.
    destruct (Z.eqb_spec (JS.code x) 120); [lia|].
    destruct (Z.eqb_spec (JS.code x) 88); [lia|].
    rewrite andb_false_r. exact Hd. }
  split.
  - unfold JS.parseInt.
    rewrite (trimStart_fixed _ (strip_space_visible c s ltac:(lia))).
    destruct (Z.eqb_spec (JS.code c) 45); [lia|].
    destruct (Z.eqb_spec (JS.code c) 43); [lia|].
    replace (JS.to_Number v) with (JS.to_Number (1 * v)) by (f_equal; lia).
    destruct s as [|x r].
    + rewrite Hd. reflexivity.
    + simpl in Hx.
      destruct ((JS.code c =? 48) && ((JS.code x =? 120) || (JS.code x =? 88)));
        rewrite Hx; reflexivity.
  - unfold JS.parseInt.
    rewrite (trimStart_fixed _
               (strip_space_visible "-" _ ltac:(vm_compute; split; discriminate))).
    change (JS.code "-" =? 45) with true. cbv iota beta.
    replace (JS.to_Number (- v)) with (JS.to_Number (-1 * v)) by (f_equal; lia).
    destruct s as [|x r].
    + rewrite Hd. reflexivity.
    + simpl in Hx.
      destruct ((JS.code c =? 48) && ((JS.code x =? 120) || (JS.code x =? 88)));
        rewrite Hx; reflexivity.
Qed.

Lemma to_Number_opp v a :
  JS.to_Number v = JS.Finite a -> JS.to_Number (- v) = JS.Finite (- a).
Proof.
  unfold JS.to_Number. rewrite Z.abs_opp. cbv zeta.
  destruct (Z.abs v <? 2 ^ 53).
  - intros E. injection E as <-. reflexivity.
  - match goal with
    | |- context [2 ^ 1024 <=? ?m] => destruct (2 ^ 1024 <=? m); [discriminate|]
    end.
    intros E. injection E as <-. f_equal. rewrite Z.sgn_opp. lia.
Qed.

Lemma stands_for_true a s j :
  stands_for a s j = true -> JS.to_Number (s * 10 ^ Z.of_nat j) = JS.Finite a.
Proof.
  unfold stands_for. destruct (JS.to_Number (s * 10 ^ Z.of_nat j)) as [v|b];
    [|discriminate].
  intros E. apply Z.eqb_eq in E. subst. reflexivity.
Qed.

(** What the search for the shortest digits returns is read back as [a]. *)
Lemma shortest_spec j : forall a,
  0 <= a -> JS.to_Number a = JS.Finite a ->
  (snd (shortest j a) <= j)%nat /\
  0 <= fst (shortest j a) <= a / 10 ^ Z.of_nat (snd (shortest j a)) + 1 /\
  JS.to_Number (fst (shortest j a) * 10 ^ Z.of_nat (snd (shortest j a)))
    = JS.Finite a.
Proof.
  induction j as [|j IH]; intros a Ha Hd.
  - simpl. change (10 ^ Z.of_nat 0) with 1. rewrite Z.div_1_r, Z.mul_1_r.
    repeat split; try lia. exact Hd.
  - cbn [shortest]. cbv zeta.
    assert (Hp : 0 < 10 ^ Z.of_nat (S j)) by (apply Z.pow_pos_nonneg; lia).
    assert (Hlo : 0 <= a / 10 ^ Z.of_nat (S j)) by (apply Z.div_pos; lia).
    match goal with
    | |- context [if ?c then (?lo, S j) else _] => destruct c eqn:E1
    end.
    + apply andb_true_iff in E1. destruct E1 as [E1 _].
      apply andb_true_iff in E1. destruct E1 as [_ E1].
      apply stands_for_true in E1. cbn [fst snd].
      repeat split; try lia. exact E1.
    + destruct (stands_for a (a / 10 ^ Z.of_nat (S j) + 1) (S j)) eqn:E2.
      * apply stands_for_true in E2. cbn [fst snd].
        repeat split; try lia. exact E2.
      * destruct (IH a Ha Hd) as (H1 & H2 & H3).
        repeat split; try lia; assumption.
Qed.

Lemma decimal_fuel_length fuel : forall n acc k,
  0 <= n < 10 ^ Z.of_nat (S k) ->
  (String.length (decimal_fuel fuel n acc) <= S k + String.length acc)%nat.
Proof.
  induction fuel as [|fuel IH]; intros n acc k Hn; [simpl; lia|].
  simpl decimal_fuel. destruct (Z.ltb_spec n 10) as [Hs|Hs]; [simpl; lia|].
  destruct k as [|k]; [change (10 ^ Z.of_nat 1) with 10 in Hn; lia|].
  assert (Hq : 0 <= n / 10 < 10 ^ Z.of_nat (S k)).
  { split; [apply Z.div_pos; lia|].
    apply Z.div_lt_upper_bound; [lia|].
    rewrite (Nat2Z.inj_succ (S k)), Z.pow_succ_r in Hn by lia. lia. }
  specialize (IH (n / 10) (String (digit_char (n mod 10)) acc) k Hq).
  simpl String.length in IH. lia.
Qed.

Lemma digit_count_small a : 0 <= a < 10 ^ 21 -> (digit_count a <= 21)%nat.
Proof.
  intros Ha. unfold digit_count, decimal.
  pose proof (decimal_fuel_length (S (Z.to_nat (Z.log2 a))) a EmptyString 20 Ha) as H.
  change (String.length EmptyString) with 0%nat in H. lia.
Qed.

(** Below 10^21 the text of a double is a string of digits that parseInt
    reads back as that double. *)
Lemma digits_toString_read a :
  0 <= a < 10 ^ 21 -> JS.to_Number a = JS.Finite a ->
  exists c s v,
    digits_toString a = String c s /\ 48 <= JS.code c <= 57 /\
    all_digits s = true /\
    JS.digits 10 None (String c s) = Some v /\
    JS.to_Number v = JS.Finite a.
Proof.
  intros Ha Hd. unfold digits_toString.
  destruct (shortest_spec (digit_count a) a (proj1 Ha) Hd) as (Hk & Hs & Hv).
  pose proof (digit_count_small a Ha) as Hc.
  destruct (shortest (digit_count a) a) as [s k]. cbn [fst snd] in *.
  assert (Hp : 0 < 10 ^ Z.of_nat k) by (apply Z.pow_pos_nonneg; lia).
  assert (Hsmall : s * 10 ^ Z.of_nat k < 10 ^ 21).
  { assert (Hle : s * 10 ^ Z.of_nat k <= 10 ^ 21).
    { assert (E : 10 ^ 21 = 10 ^ Z.of_nat k * 10 ^ (21 - Z.of_nat k)).
      { rewrite <- Z.pow_add_r by lia. f_equal. lia. }
      assert (Hq : a / 10 ^ Z.of_nat k < 10 ^ (21 - Z.of_nat k)).
      { apply Z.div_lt_upper_bound; [exact Hp|]. rewrite <- E. lia. }
      rewrite E. rewrite (Z.mul_comm s).
      apply Z.mul_le_mono_nonneg_l; lia. }
    destruct (Z.eq_dec (s * 10 ^ Z.of_nat k) (10 ^ 21)) as [E|E]; [|lia].
    rewrite E in Hv. vm_compute in Hv. injection Hv as Hv. lia. }
  rewrite (proj2 (Z.ltb_lt _ _) Hsmall).
  destruct (decimal_before_shape s (zeros k) (proj1 Hs) (all_digits_zeros k))
    as (c & r & E & Hcode & Hall & Hread).
  exists c, r, (s * 10 ^ Z.of_nat k). rewrite E.
  repeat split; try assumption; try lia.
  rewrite Hread. apply digits_zeros.
Qed.

Lemma parseInt_toString n :
  JS.to_Number n = JS.Finite n -> Z.abs n < 10 ^ 21 ->
  JS.parseInt (Number_toString n) = Some (JS.Finite n).
Proof.
  intros Hd Hn. unfold Number_toString.
  destruct (Z.ltb_spec n 0) as [Hneg|Hpos].
  - pose proof (to_Number_opp n n Hd) as Hd'.
    destruct (digits_toString_read (- n) ltac:(lia) Hd')
      as (c & s & v & E & Hc & Hs & Hr & Hv).
    rewrite E. rewrite (proj2 (parseInt_digit_string c s v Hc Hs Hr)).
    f_equal. rewrite (to_Number_opp v (- n) Hv). f_equal. lia.
  - destruct (digits_toString_read n ltac:(lia) Hd)
      as (c & s & v & E & Hc & Hs & Hr & Hv).
    rewrite E. rewrite (proj1 (parseInt_digit_string c s v Hc Hs Hr)).
    f_equal. exact Hv.
Qed.

Lemma quantityNum_toString n :
  JS.to_Number n = JS.Finite n -> Z.abs n < 10 ^ 21 ->
  JS.parseInt (Number_toString n) = Some (JS.Finite n) /\
  (n <> 0 -> AddItemModal.quantityNum (Number_toString n) = n) /\
  (n = 0 -> AddItemModal.quantityNum (Number_toString n) = 1).
Proof.
  intros Hd Hn. pose proof (parseInt_toString n Hd Hn) as H. split; [exact H|].
  unfold AddItemModal.quantityNum. rewrite H. unfold JS.or_else. split.
  - intros Hz. rewrite (proj2 (Z.eqb_neq _ _) Hz). reflexivity.
  - intros ->. reflexivity.
Qed.

(** X8. A quantity written into the form by [toString] and read back by
    the save handler is the same number, except 0, which the handler
    replaces by 1.  This holds for the integer-valued doubles below
    10^21 in absolute value, which [toString] prints in digits. *)
Theorem quantity_round_trip (n : Z) :
  JS.to_Number n = JS.Finite n -> Z.abs n < 10 ^ 21 ->
  JS.parseInt (Number_toString n) = Some (JS.Finite n) /\
  (n <> 0 -> AddItemModal.quantityNum (Number_toString n) = n) /\
  (n = 0 -> AddItemModal.quantityNum (Number_toString n) = 1).
Proof.
  intros Hd Hn. apply quantityNum_toString; assumption.
Qed.

End Quantities.

(** handleSave with an item being edited is updateItem on the trimmed
    fields and on quantityNum. *)
Lemma handleSave_update nm quantity cat it w :
  AddItemModal.validateForm nm = true ->
  AddItemModal.handleSave nm quantity cat (Some it) w =
  match updateItem (id it) (JS.trim nm) (AddItemModal.quantityNum quantity)
                   (JS.trim cat) w with
  | (Returned true, w') => (Returned AddItemModal.ItemUpdated, w')
  | (Returned false, w') => (Returned AddItemModal.UpdateFailed, w')
  | (Threw _, w') => (Returned AddItemModal.SaveCrashed, w')
  end.
Proof.
  intros Hv. unfold AddItemModal.handleSave. rewrite Hv. simpl.
  unfold try_catch, bind, ret.
  destruct (updateItem (id it) (JS.trim nm) (AddItemModal.quantityNum quantity)
                       (JS.trim cat) w) as [[[|]|e] w']; reflexivity.
Qed.

Lemma validateForm_trimmed nm :
  JS.trim nm = nm -> nm <> EmptyString -> AddItemModal.validateForm nm = true.
Proof.
  intros E Hne. unfold AddItemModal.validateForm. rewrite E.
  destruct nm; [contradiction|reflexivity].
Qed.

Lemma or_string_empty s : or_string s "" = s.
Proof. destruct s; reflexivity. Qed.

Lemma handleSave_update_calm nm quantity cat it w t :
  AddItemModal.validateForm nm = true ->
  no_fault w -> grocery_items w = Some t ->
  result_of (AddItemModal.handleSave nm quantity cat (Some it)) w =
    Returned AddItemModal.ItemUpdated /\
  table_after (AddItemModal.handleSave nm quantity cat (Some it)) w =
    Some (Sqlite.update_fields (id it) (JS.trim nm)
            (AddItemModal.quantityNum quantity) (JS.trim cat) t).
Proof.
  intros Hv Ef Et. unfold result_of, table_after.
  rewrite (handleSave_update _ _ _ _ _ Hv).
  pose proof (write_accessor_calm
                (Sqlite.update_fields (id it) (JS.trim nm)
                   (AddItemModal.quantityNum quantity) (JS.trim cat)) w t Ef Et)
    as (Hr & Ht & _).
  rewrite <- updateItem_write in Hr, Ht. unfold result_of, world_after in Hr, Ht.
  destruct (updateItem (id it) (JS.trim nm) (AddItemModal.quantityNum quantity)
                       (JS.trim cat) w) as [r w']. simpl in Hr, Ht. subst r.
  split; [reflexivity|exact Ht].
Qed.

(** X9. Opening a stored item in the form and saving it untouched, with
    no store fault and no failed opening remembered, reports the update
    and leaves the table exactly as it was, provided the row is one the
    form could have written (a trimmed, non-empty name, a trimmed
    category, a quantity other than 0), its quantity is a double below
    10^21 in absolute value, and the identifiers are distinct. *)
Theorem edit_without_change (w : World) (t : Table) (it : GroceryItem) (n : Z) :
  faults w = [] -> open_failed w = false ->
  grocery_items w = Some t -> well_formed (Some t) ->
  In it (rows t) ->
  from_form (name it) (quantity it) (category it) ->
  quantity it = n -> JS.to_Number n = JS.Finite n -> Z.abs n < 10 ^ 21 ->
  result_of (save (populate (Some it)) (Some it)) w =
    Returned AddItemModal.ItemUpdated /\
  table_after (save (populate (Some it)) (Some it)) w = Some t.
Proof.
  intros Ef Eo Et [Hn _] Hin (Hname & Hne & Hq & Hcat) Eq Hd Hbig.
  unfold save, populate. simpl.
  destruct (handleSave_update_calm (name it) (Number_toString (quantity it))
              (or_string (category it) "") it w t
              (validateForm_trimmed _ Hname Hne) (conj Ef Eo) Et) as [Hr Ht].
  split; [exact Hr|]. rewrite Ht. f_equal.
  rewrite or_string_empty, Hname, Hcat.
  assert (Hz : n <> 0) by (intros ->; exact (Hq Eq)).
  rewrite Eq, (proj1 (proj2 (quantityNum_toString n Hd Hbig)) Hz), <- Eq.
  destruct t as [l s]. unfold Sqlite.update_fields. simpl in *. f_equal.
  apply map_fixed. intros r Hr'.
  destruct (Z.eqb_spec (id r) (id it)) as [E|E]; [|reflexivity].
  rewrite (NoDup_map_same id l r it Hn Hr' Hin E). destruct it; reflexivity.
Qed.

(** X10. With no store fault and no failed opening remembered, saving
    the form for an item whose row is gone (deleted since the form was
    opened) reports a successful update, although no row is changed. *)
Theorem saving_a_deleted_item_reports_success
        (w : World) (t : Table) (it : GroceryItem) (nm quantity cat : string) :
  faults w = [] -> open_failed w = false -> grocery_items w = Some t ->
  AddItemModal.validateForm nm = true ->
  (forall r, In r (rows t) -> id r <> id it) ->
  result_of (AddItemModal.handleSave nm quantity cat (Some it)) w =
    Returned AddItemModal.ItemUpdated /\
  table_after (AddItemModal.handleSave nm quantity cat (Some it)) w = Some t.
Proof.
  intros Ef Eo Et Hv Habs.
  destruct (handleSave_update_calm nm quantity cat it w t Hv (conj Ef Eo) Et)
    as [Hr Ht].
  split; [exact Hr|]. rewrite Ht. f_equal. apply update_fields_absent, Habs.
Qed.

Lemma spaces_trim s : JS.trim s = EmptyString <-> Spaces s.
Proof.
  unfold JS.trim. split.
  - intros H.
    assert (Hu : Spaces (JS.trimStart s)).
    { destruct (JS.trimStart s) as [|c u] eqn:E; [constructor|].
      simpl in H. destruct (JS.all_space (String c u)) eqn:Ea; [|discriminate].
      apply all_space_spaces, Ea. }
    pose proof (trimStart_stripped s) as Hs.
    inversion Hu as [E|u u' Eu _ E]; [|congruence].
    apply all_space_spaces. unfold JS.all_space. rewrite <- E. reflexivity.
  - intros H. apply all_space_spaces in H. unfold JS.all_space in H.
    destruct (JS.trimStart s); [reflexivity|discriminate].
Qed.

(** X11. The save handler rejects the form exactly when the name is made
    of white space only (the empty name included), and a rejected save
    does nothing: the database is not even opened. *)
Theorem blank_name_is_rejected
        (nm quantity cat : string) (editItem : option GroceryItem) (w : World) :
  (AddItemModal.validateForm nm = false <-> Spaces nm) /\
  (Spaces nm ->
   AddItemModal.handleSave nm quantity cat editItem w =
   (Returned AddItemModal.Rejected, w)) /\
  (~ Spaces nm ->
   result_of (AddItemModal.handleSave nm quantity cat editItem) w <>
   Returned AddItemModal.Rejected).
Proof.
  assert (Hiff : AddItemModal.validateForm nm = false <-> Spaces nm).
  { rewrite <- spaces_trim. unfold AddItemModal.validateForm.
    destruct (JS.trim nm); simpl; split; congruence. }
  split; [exact Hiff|]. split.
  - intros Hs. apply Hiff in Hs. unfold AddItemModal.handleSave.
    rewrite Hs. reflexivity.
  - intros Hs. assert (Hv : AddItemModal.validateForm nm = true).
    { destruct (AddItemModal.validateForm nm); [reflexivity|].
      exfalso. apply Hs, Hiff. reflexivity. }
    destruct editItem as [it|]; unfold result_of.
    + rewrite (handleSave_update _ _ _ _ _ Hv).
      destruct (updateItem _ _ _ _ w) as [[[|]|e] w']; discriminate.
    + rewrite (handleSave_add _ _ _ _ Hv).
      destruct (addItem _ _ _ w) as [[[i|]|e] w']; try discriminate.
      destruct (i =? 0); discriminate.
Qed.

(* ===================================================================== *)
(** ** The database handle                                               *)
(* ===================================================================== *)

(** A statement does not touch the platform or the handle variables. *)
Lemma handle_statement {A} (Q : bool -> bool -> option Promise -> Prop)
      (run : Table -> Outcome (A * Table)) :
  keeps (fun w => Q (web w) (db w) (dbPromise w)) (Sqlite.statement run).
Proof.
  intros w H. destruct w as [pw d p [t|] f c n]; simpl in H;
    unfold world_after, Sqlite.statement, bind, Sqlite.next_fault, throw; simpl;
    destruct f as [|[|] fs]; simpl; try exact H;
    destruct (run t) as [[a t']|e]; exact H.
Qed.

Lemma handle_create (Q : bool -> bool -> option Promise -> Prop) :
  keeps (fun w => Q (web w) (db w) (dbPromise w)) Sqlite.execAsync_create.
Proof.
  intros w H. destruct w as [pw d p t f c n]; simpl in H.
  destruct f as [|[|] fs]; exact H.
Qed.

Lemma handle_driver (Q : bool -> bool -> option Promise -> Prop) :
  keeps (fun w => Q (web w) (db w) (dbPromise w)) getDatabase ->
  driver_invariant (fun _ _ _ => True) (fun w => Q (web w) (db w) (dbPromise w)).
Proof.
  intros Hg. constructor; intros; try apply handle_statement; try exact Hg.
  intros w H. exact H.
Qed.

(** What a session keeps of the handle, given that getDatabase keeps it. *)
Lemma handle_session (Q : bool -> bool -> option Promise -> Prop)
      (cs : list Call) :
  keeps (fun w => Q (web w) (db w) (dbPromise w)) getDatabase ->
  keeps (fun w => Q (web w) (db w) (dbPromise w)) (session cs).
Proof.
  intros Hg. apply (keeps_session _ _ (handle_driver Q Hg) cs);
    [apply call_ok_any|]. intros _. apply (handle_create Q).
Qed.

Lemma platform_getDatabase (pw : bool) : keeps (fun w => web w = pw) getDatabase.
Proof.
  intros w H. rewrite <- H. clear H. destruct w as [pw0 d p t f c n].
  destruct pw0, d, p as [[|e]|], f as [|[|] fs]; reflexivity.
Qed.

Lemma reachable_getDatabase :
  keeps (fun w => reachable_state (web w) (db w) (dbPromise w)) getDatabase.
Proof.
  intros w H. destruct w as [pw d p t f c n]. unfold reachable_state in *.
  simpl in H.
  destruct H as [->|(-> & -> & ->)];
    [destruct pw, d, f as [|[|] fs]; simpl; auto|destruct f; simpl; auto].
Qed.

Lemma settled_on_web_getDatabase :
  keeps (fun w => (fun (on_web d : bool) (p : option Promise) =>
                     on_web = true /\ p = (if d then Some Fulfilled else None))
                    (web w) (db w) (dbPromise w))
        getDatabase.
Proof.
  intros w [H1 H2]. destruct w as [pw d p t f c n]; simpl in H1, H2. subst.
  destruct d, f as [|[|] fs]; split; reflexivity.
Qed.

Lemma opened_getDatabase :
  keeps (fun w => (fun (_ d : bool) (p : option Promise) =>
                     d = true /\ p = Some Fulfilled)
                    (web w) (db w) (dbPromise w))
        getDatabase.
Proof.
  intros w [H1 H2]. destruct w as [pw d p t f c n]; simpl in H1, H2. subst.
  split; reflexivity.
Qed.

(** X12. No call changes the platform.  Between awaited calls the
    handle variables are both null, or both set with the promise
    fulfilled, or (elsewhere than on the web only) [db] is null and
    [dbPromise] holds the promise rejected by a failed opening; on the
    web they are always both null or both set.  A database that has
    been opened is never closed or opened again by any call. *)
Theorem handle_is_kept (cs : list Call) (w : World) :
  web (world_after (session cs) w) = web w /\
  (handle_reachable w -> handle_reachable (world_after (session cs) w)) /\
  (web w = true -> handle_settled w ->
   handle_settled (world_after (session cs) w)) /\
  (db w = true -> dbPromise w = Some Fulfilled ->
   db (world_after (session cs) w) = true /\
   dbPromise (world_after (session cs) w) = Some Fulfilled) /\
  (db w = true -> getDatabase w = (Returned tt, w)).
Proof.
  split; [|split; [|split; [|split]]].
  - apply (handle_session (fun on_web _ _ => on_web = web w) cs
             (platform_getDatabase (web w))). reflexivity.
  - apply (handle_session reachable_state cs reachable_getDatabase).
  - intros H1 H2.
    apply (handle_session _ cs settled_on_web_getDatabase). split; assumption.
  - intros H1 H2.
    apply (handle_session _ cs opened_getDatabase). split; assumption.
  - intros H. unfold getDatabase. rewrite H. reflexivity.
Qed.

(** X13. What a failed opening leaves depends on the platform.  When
    the database is not open and the driver fails to open it, every
    accessor returns its sentinel and uses up the fault.  On the web
    nothing else changes, so that the next call tries to open the
    database again; elsewhere [dbPromise] keeps the rejected promise. *)
Theorem failed_open_by_platform
        (w : World) (fs : list bool) (i : Z) (nm : string) (q : JS.Number)
        (cat : string) (b : Z) :
  db w = false -> dbPromise w = None -> faults w = true :: fs ->
  initDatabase w = (Returned false, after_failed_open fs w) /\
  getAllItems w = (Returned [], after_failed_open fs w) /\
  addItem nm q cat w = (Returned None, after_failed_open fs w) /\
  updateItem i nm q cat w = (Returned false, after_failed_open fs w) /\
  toggleBoughtStatus i b w = (Returned false, after_failed_open fs w) /\
  deleteItem i w = (Returned false, after_failed_open fs w) /\
  deleteAllBoughtItems w = (Returned false, after_failed_open fs w) /\
  clearAllItems w = (Returned false, after_failed_open fs w) /\
  seedSampleData w = (Returned tt, after_failed_open fs w) /\
  (web w = true -> after_failed_open fs w = set_faults fs w) /\
  (web w = false -> open_failed (after_failed_open fs w) = true).
Proof.
  intros Hd Hp Hf. destruct w as [pw d p t f c n]; simpl in Hd, Hp, Hf. subst.
  destruct pw; repeat split; try reflexivity; discriminate.
Qed.

Lemma call_open_failed (c : Call) (w : World) :
  open_failed w = true -> call c w = (Returned tt, w).
Proof.
  intros Eo. destruct (open_failed_sentinels w Eo) as (H1 & H2 & H3 & H4).
  destruct c as [ | | |nm q cat|i nm q cat|i b|i| | |nm qty cat editItem];
    unfold call, discard, bind, ret;
    rewrite ?updateItem_write, ?toggleBoughtStatus_write, ?deleteItem_write,
      ?deleteAllBoughtItems_write, ?clearAllItems_write,
      ?(write_accessor_open_failed _ w Eo), ?H1, ?H2, ?H3, ?H4;
    try reflexivity.
  unfold AddItemModal.handleSave.
  destruct (AddItemModal.validateForm nm); [|reflexivity].
  destruct editItem as [it|]; unfold try_catch, bind, ret; simpl;
    rewrite ?updateItem_write, ?(write_accessor_open_failed _ w Eo), ?H2;
    reflexivity.
Qed.

(** X21. Elsewhere than on the web a failed opening is remembered until
    the process ends: while [dbPromise] holds the rejected promise,
    every accessor returns its sentinel without calling the driver and
    leaves everything as it is, whatever session of calls is made; only
    a process start makes the database reachable again. *)
Theorem failed_open_is_remembered
        (w : World) (cs : list Call) (i : Z) (nm : string) (q : JS.Number)
        (cat : string) (b : Z) :
  open_failed w = true ->
  initDatabase w = (Returned false, w) /\
  getAllItems w = (Returned [], w) /\
  addItem nm q cat w = (Returned None, w) /\
  updateItem i nm q cat w = (Returned false, w) /\
  toggleBoughtStatus i b w = (Returned false, w) /\
  deleteItem i w = (Returned false, w) /\
  deleteAllBoughtItems w = (Returned false, w) /\
  clearAllItems w = (Returned false, w) /\
  seedSampleData w = (Returned tt, w) /\
  session cs w = (Returned tt, w) /\
  open_failed (process_start w) = false.
Proof.
  intros Eo. destruct (open_failed_sentinels w Eo) as (H1 & H2 & H3 & H4).
  split; [exact H3|]. split; [exact H1|]. split; [apply H2|].
  rewrite updateItem_write, toggleBoughtStatus_write, deleteItem_write,
    deleteAllBoughtItems_write, clearAllItems_write.
  rewrite !(write_accessor_open_failed _ w Eo).
  repeat (split; [reflexivity|]). split; [exact H4|]. split; [|reflexivity].
  induction cs as [|c cs IH]; [reflexivity|].
  unfold session. rewrite for_of_cons, (call_open_failed c w Eo). exact IH.
Qed.

(** X14. getAllItems never writes: whatever the world and the faults,
    the table after the call is the table before it. *)
Theorem getAllItems_never_writes (w : World) :
  table_after getAllItems w = grocery_items w.
Proof.
  assert (H : keeps (fun w' => grocery_items w' = grocery_items w) getAllItems).
  { unfold getAllItems, getAllItems_try. keeps_steps.
    - apply (table_getDatabase (fun d => d = grocery_items w)).
    - apply (table_statement (fun d => d = grocery_items w)).
      intros t u t' Ht E. injection E as _ <-. exact Ht. }
  apply H. reflexivity.
Qed.

(* ===================================================================== *)
(** ** The three variants of db.ts                                       *)
(* ===================================================================== *)

(** X15. Once the database is open, the lazily opening accessor does
    what the variant with the database opened at load time does, call
    for call; its initDatabase is that variant's initDatabase followed,
    on success, by the seeding. *)
Theorem lazy_accessor_agrees_with_eager
        (w : World) (i : Z) (nm : string) (q : JS.Number) (cat : string) (b : Z) :
  db w = true ->
  getAllItems w = Eager.getAllItems w /\
  addItem nm q cat w = Eager.addItem nm q cat w /\
  updateItem i nm q cat w = Eager.updateItem i nm q cat w /\
  toggleBoughtStatus i b w = Eager.toggleBoughtStatus i b w /\
  deleteItem i w = Eager.deleteItem i w /\
  deleteAllBoughtItems w = Eager.deleteAllBoughtItems w /\
  clearAllItems w = Eager.clearAllItems w /\
  initDatabase w =
    (let* created := Eager.initDatabase in
     if created then let* _ := seedSampleData in ret true else ret false) w.
Proof.
  intros Hd. destruct w as [pw d p t f c n]; simpl in Hd; subst.
  repeat split; try reflexivity.
  unfold initDatabase, initDatabase_try, Eager.initDatabase.
  unfold_driver. simpl.
  destruct f as [|[|] fs]; simpl; try reflexivity;
    match goal with
    | |- context [seedSampleData ?W] =>
        pose proof (seedSampleData_returns W) as Hs; unfold result_of in Hs;
        destruct (seedSampleData W) as [[[]|e] w1]
    end; simpl in Hs; try discriminate; reflexivity.
Qed.

(** X16. The initDatabase of the variant without seeding never inserts
    a row: it leaves an existing table as it is and creates an empty one
    when there is none.  On a new database, with no store fault, the
    scenario of the specification then runs as written: one Milk row,
    that row bought, the empty list. *)
Theorem eager_initDatabase_never_seeds (w : World) :
  (forall t, grocery_items w = Some t ->
     table_after Eager.initDatabase w = Some t) /\
  (grocery_items w = None ->
     table_after Eager.initDatabase w = None \/
     table_after Eager.initDatabase w = Some (mkTable [] 0)) /\
  (result_of Eager.initDatabase w = Returned true ->
     table_after Eager.initDatabase w <> None) /\
  (faults w = [] -> grocery_items w = None ->
     result_of (let* _ := Eager.initDatabase in Eager.scenario) w =
     Returned ([mkItem 1 "Milk" 2 "Drinks" 0 (clock w (reads w))],
               [mkItem 1 "Milk" 2 "Drinks" 1 (clock w (reads w))],
               [])).
Proof.
  destruct w as [pw d p t f c n]. simpl. repeat split.
  - intros t0 ->. destruct f as [|[|] fs]; reflexivity.
  - intros ->. destruct f as [|[|] fs]; auto.
  - destruct t, f as [|[|] fs]; simpl; discriminate.
  - intros -> ->. reflexivity.
Qed.

(** The seeding of the synchronous variant keeps the handle open. *)
Lemma handle_seed_sync (w : World) :
  db w = true -> db (world_after Sync.seedSampleData w) = true.
Proof.
  assert (Hon : forall A (m : Async A),
             keeps (fun w => db w = true) m ->
             keeps (fun w => db w = true) (Sync.on_db m)).
  { intros A m Hm w' Hw. specialize (Hm w' Hw).
    unfold world_after, Sync.on_db in *. rewrite Hw. exact Hm. }
  assert (Hst : forall A (run : Table -> Outcome (A * Table)),
             keeps (fun w => db w = true) (Sqlite.statement run)).
  { intros A run. apply (handle_statement (fun _ d _ => d = true)). }
  assert (H : keeps (fun w => db w = true) Sync.seedSampleData).
  { unfold Sync.seedSampleData. keeps_steps.
    - apply Hon, Hst.
    - destruct (_ =? 0); keeps_steps.
      unfold Sync.insert_sample. destruct x as [[nm q] cat]. keeps_steps.
      unfold Sync.runAsync_insert_now. apply Hon. keeps_steps.
      + intros w' Hw. exact Hw.
      + apply Hst. }
  apply H.
Qed.

(** X17. In the variant with the synchronous getDatabase, the database
    is opened by initDatabase alone: until then every other function
    returns its sentinel and touches nothing, not even the driver; once
    the database is open they do what the variant with the database
    opened at load time does. *)
Theorem sync_accessor_needs_initDatabase
        (w : World) (i : Z) (nm : string) (q : JS.Number) (cat : string) (b : Z) :
  (db w = false ->
   Sync.getAllItems w = (Returned [], w) /\
   Sync.addItem nm q cat w = (Returned None, w) /\
   Sync.updateItem i nm q cat w = (Returned false, w) /\
   Sync.toggleBoughtStatus i b w = (Returned false, w) /\
   Sync.deleteItem i w = (Returned false, w) /\
   Sync.deleteAllBoughtItems w = (Returned false, w) /\
   Sync.clearAllItems w = (Returned false, w) /\
   Sync.seedSampleData w = (Returned tt, w)) /\
  (db w = true ->
   Sync.getAllItems w = Eager.getAllItems w /\
   Sync.addItem nm q cat w = Eager.addItem nm q cat w /\
   Sync.updateItem i nm q cat w = Eager.updateItem i nm q cat w /\
   Sync.toggleBoughtStatus i b w = Eager.toggleBoughtStatus i b w /\
   Sync.deleteItem i w = Eager.deleteItem i w /\
   Sync.deleteAllBoughtItems w = Eager.deleteAllBoughtItems w /\
   Sync.clearAllItems w = Eager.clearAllItems w) /\
  (result_of Sync.initDatabase w = Returned true ->
   db (world_after Sync.initDatabase w) = true).
Proof.
  destruct w as [pw d p t f c n]. simpl. split; [|split].
  - intros ->. repeat split; reflexivity.
  - intros ->. repeat split; reflexivity.
  - unfold result_of, world_after, Sync.initDatabase, Sync.getDatabase.
    unfold_driver. simpl.
    destruct d; simpl; destruct f as [|[|] [|[|] fs]]; simpl;
      try (intros H; discriminate H); try (intros _; reflexivity);
      match goal with
      | |- context [Sync.seedSampleData ?W] =>
          pose proof (handle_seed_sync W eq_refl) as Hs;
          unfold world_after in Hs;
          destruct (Sync.seedSampleData W) as [[[]|e] w1]
      end; simpl in *; try (intros H; discriminate H); intros _; exact Hs.
Qed.

(** X18. The initDatabase of the variant with the synchronous
    getDatabase does what the initDatabase of the lazily opening variant
    does: with the database open, or with [dbPromise] null, on every
    platform, for every table and every schedule of faults it returns
    the same value and leaves the same table and the same handle. *)
Theorem sync_initDatabase_agrees_with_lazy (w : World) :
  db w = true \/ dbPromise w = None ->
  result_of Sync.initDatabase w = result_of initDatabase w /\
  table_after Sync.initDatabase w = table_after initDatabase w /\
  db (world_after Sync.initDatabase w) = db (world_after initDatabase w).
Proof.
  intros H. destruct w as [pw d p t f c n]. simpl in H.
  assert (Hd : d = true \/ (d = false /\ p = None))
    by (destruct d; [left; reflexivity|right; destruct H; [discriminate|auto]]).
  clear H. destruct Hd as [->|[-> ->]];
  destruct pw, t as [[[|r rs] s]|];
    destruct f as [|[|] [|[|] [|[|] [|[|] [|[|] [|[|] fs]]]]]];
    unfold result_of, table_after, world_after;
    cbv -[Z.leb Z.add Z.max Sqlite.max_rowid Sqlite.largest_id Z.of_nat];
    repeat match goal with
           | |- context [if ?c then _ else _] => destruct c
           end; repeat split.
Qed.

(** X19. The list screen shows what getAllItems returns, so a read that
    fails replaces the items on the screen by the empty list, whatever
    was shown before; the catch of loadItems is never reached. *)
Theorem failed_refresh_empties_the_list (items : list GroceryItem) (w : World) :
  result_of (loadItems items) w = result_of getAllItems w /\
  (forall fs, faults w = true :: fs -> result_of (loadItems items) w = Returned []) /\
  (grocery_items w = None -> result_of (loadItems items) w = Returned []).
Proof.
  assert (H : result_of (loadItems items) w = result_of getAllItems w).
  { unfold loadItems, result_of, try_catch, bind, ret.
    destruct (try_catch_caught getAllItems_try [] w) as (_ & _ & (a & Ha)).
    fold getAllItems in Ha. unfold result_of in Ha.
    destruct (getAllItems w) as [[l|e] w1]; simpl in *; [reflexivity|discriminate]. }
  split; [exact H|]. rewrite H. split.
  - intros fs Ef. destruct w as [pw d p [t|] f c n]; simpl in Ef; subst;
      destruct pw, d, p as [[|e]|]; reflexivity.
  - intros Et. destruct (faults w) as [|[|] [|[|] fs]] eqn:Ef;
      world_cases w; simpl in Et, Ef; subst; reflexivity.
Qed.

(* ===================================================================== *)
(** ** Writes, one after the other                                       *)
(* ===================================================================== *)

Lemma write_then_write_calm (f g : Table -> Table) (w : World) (t : Table) :
  no_fault w -> grocery_items w = Some t ->
  table_after (and_then (write_accessor f) (write_accessor g)) w = Some (g (f t)).
Proof.
  intros Ef Et.
  assert (H : calm_run (and_then (write_accessor f) (write_accessor g)) w true
                (Some (g (f t))) (reads w)).
  { unfold and_then. eapply calm_run_bind;
      [apply write_accessor_calm; eassumption|].
    intros w1 Ef1 Et1 Ec1 En1.
    destruct (write_accessor_calm g w1 (f t) Ef1 Et1) as (H1 & H2 & H3 & H4 & H5).
    no_fault_parts. repeat split; congruence. }
  exact (proj1 (proj2 H)).
Qed.

Lemma write_then_write_open_failed (f g : Table -> Table) (w : World) :
  open_failed w = true ->
  table_after (and_then (write_accessor f) (write_accessor g)) w = grocery_items w.
Proof.
  intros Eo. unfold table_after, and_then, bind.
  rewrite !(write_accessor_open_failed _ w Eo). reflexivity.
Qed.

Lemma update_fields_twice i nm q cat nm' q' cat' t :
  Sqlite.update_fields i nm' q' cat' (Sqlite.update_fields i nm q cat t) =
  Sqlite.update_fields i nm' q' cat' t.
Proof.
  unfold Sqlite.update_fields. simpl. f_equal. rewrite map_map.
  apply map_ext. intros r. destruct (Z.eqb_spec (id r) i) as [E|E]; simpl.
  - rewrite (proj2 (Z.eqb_eq _ _) E). reflexivity.
  - rewrite (proj2 (Z.eqb_neq _ _) E). reflexivity.
Qed.

Lemma update_bought_twice i a b t :
  Sqlite.update_bought i b (Sqlite.update_bought i a t) = Sqlite.update_bought i b t.
Proof.
  unfold Sqlite.update_bought. simpl. f_equal. rewrite map_map.
  apply map_ext. intros r. destruct (Z.eqb_spec (id r) i) as [E|E]; simpl.
  - rewrite (proj2 (Z.eqb_eq _ _) E). reflexivity.
  - rewrite (proj2 (Z.eqb_neq _ _) E). reflexivity.
Qed.

Lemma update_fields_bought_commute i nm q cat j b t :
  Sqlite.update_bought j b (Sqlite.update_fields i nm q cat t) =
  Sqlite.update_fields i nm q cat (Sqlite.update_bought j b t).
Proof.
  unfold Sqlite.update_bought, Sqlite.update_fields. simpl. f_equal.
  rewrite !map_map. apply map_ext. intros r.
  destruct (Z.eqb_spec (id r) i) as [E|E], (Z.eqb_spec (id r) j) as [F|F]; simpl;
    rewrite ?(proj2 (Z.eqb_eq _ _) E), ?(proj2 (Z.eqb_neq _ _) E),
            ?(proj2 (Z.eqb_eq _ _) F), ?(proj2 (Z.eqb_neq _ _) F); reflexivity.
Qed.

Lemma delete_bought_twice t :
  Sqlite.delete_bought (Sqlite.delete_bought t) = Sqlite.delete_bought t.
Proof.
  unfold Sqlite.delete_bought. simpl. f_equal. apply filter_all.
  intros r Hr. apply filter_In in Hr. tauto.
Qed.

(** X20. With no store fault the last write wins and nothing adds up:
    two updateItem calls on an id leave what the second alone leaves,
    and so do two toggleBoughtStatus calls; an updateItem and a
    toggleBoughtStatus can be made in either order; a second
    deleteAllBoughtItems deletes nothing more. *)
Theorem later_write_wins
        (w : World) (t : Table) (i j : Z) (nm nm' : string) (q q' : JS.Number)
        (cat cat' : string) (a b : Z) :
  faults w = [] -> grocery_items w = Some t ->
  table_after (and_then (updateItem i nm q cat) (updateItem i nm' q' cat')) w =
    table_after (updateItem i nm' q' cat') w /\
  table_after (and_then (toggleBoughtStatus i a) (toggleBoughtStatus i b)) w =
    table_after (toggleBoughtStatus i b) w /\
  table_after (and_then (updateItem i nm q cat) (toggleBoughtStatus j b)) w =
    table_after (and_then (toggleBoughtStatus j b) (updateItem i nm q cat)) w /\
  table_after (and_then deleteAllBoughtItems deleteAllBoughtItems) w =
    table_after deleteAllBoughtItems w.
Proof.
  intros Ef Et.
  rewrite !updateItem_write, !toggleBoughtStatus_write, deleteAllBoughtItems_write.
  destruct (open_failed w) eqn:Eo.
  - rewrite !(write_then_write_open_failed _ _ w Eo).
    unfold table_after. rewrite !(write_accessor_open_failed _ w Eo).
    repeat split.
  - rewrite !(write_then_write_calm _ _ w t (conj Ef Eo) Et).
    assert (H1 : forall f, table_after (write_accessor f) w = Some (f t)).
    { intros f. exact (proj1 (proj2 (write_accessor_calm f w t (conj Ef Eo) Et))). }
    rewrite !H1.
    rewrite update_fields_twice, update_bought_twice, update_fields_bought_commute,
      delete_bought_twice.
    repeat split.
Qed.

(* ===================================================================== *)
(** ** Further concrete runs                                             *)
(* ===================================================================== *)

Example Number_toString_examples :
  Number_toString 12 = "12" /\ Number_toString 0 = "0" /\
  Number_toString (-5) = "-5" /\ Number_toString 1000 = "1000" /\
  Number_toString 9007199254740992 = "9007199254740992" /\
  Number_toString 123456789012345683968 = "123456789012345680000" /\
  Number_toString (2 ^ 63) = "9223372036854776000" /\
  Number_toString (10 ^ 21) = "1e+21" /\
  Number_toString 99999999999999991611392 = "1e+23" /\
  Number_toString (- 2 ^ 100) = "-1.2676506002282294e+30" /\
  Number_toString (2 ^ 200) = "1.6069380442589903e+60" /\
  Number_toString (JS.Infinity false) = "Infinity" /\
  populate (Some (mkItem 2 "Trứng" 10 "Thực phẩm tươi sống" 0 1001)) =
    mkFields "Trứng" "10" "Thực phẩm tươi sống" /\
  populate None = mkFields "" "1" "".
Proof. repeat split; vm_compute; reflexivity. Qed.

(** From 10^21 on, and for an infinity, the text that [toString] writes
    into the form is not read back as the quantity: saving the form
    untouched stores the leading digit, or the default 1. *)
Example large_quantity_not_read_back :
  AddItemModal.quantityNum (Number_toString (10 ^ 21)) = 1 /\
  AddItemModal.quantityNum (Number_toString (2 ^ 100)) = 1 /\
  AddItemModal.quantityNum (Number_toString (3 * 10 ^ 21)) = 3 /\
  AddItemModal.quantityNum (Number_toString (JS.Infinity false)) = 1 /\
  AddItemModal.quantityNum "9007199254740993" = 9007199254740992 /\
  AddItemModal.quantityNum
    "1000000000000000000000000000000000000000000000000000000000000000000000000000000000000000000000000000000000000000000000000000000000000000000000000000000000000000000000000000000000000000000000000000000000000000000000000000000000000000000000000000000000000000000000000000000000000000000000000000000000000000000000000000000"
    = JS.Infinity false.
Proof. repeat split; vm_compute; reflexivity. Qed.

(** The form stores the double nearest to the digits typed. *)
Example handleSave_stores_nearest_double :
  table_after (AddItemModal.handleSave "Rice" "9007199254740993" "" None)
              cleared_world =
  Some (mkTable [mkItem 4 "Rice" 9007199254740992 "" 0 1003] 4).
Proof. vm_compute. reflexivity. Qed.

Lemma seeded_table_well_formed : well_formed (Some seeded_table).
Proof.
  split; simpl.
  - repeat constructor; simpl; intuition discriminate.
  - repeat constructor; simpl; lia.
Qed.

Lemma session_keeps_ids_unique_witness :
  result_of (session busy_session) (fresh_world [false; false; false; true]) =
    Returned tt /\
  well_formed
    (table_after (session busy_session) (fresh_world [false; false; false; true])) /\
  (forall t r1 r2,
     table_after (session busy_session) (fresh_world [false; false; false; true])
       = Some t ->
     In r1 (rows t) -> In r2 (rows t) -> id r1 = id r2 -> r1 = r2).
Proof.
  apply (session_keeps_ids_unique busy_session
           (fresh_world [false; false; false; true])).
  exact I.
Defined.

Lemma ids_never_reused_witness :
  sqlite_sequence seeded_table < 4 /\
  forall r, In r (rows seeded_table) -> id r < 4.
Proof.
  apply (ids_never_reused [CallClear; CallDelete 3] "Milk" 2 "Drinks"
           seeded_world seeded_table 4);
    [reflexivity | exact seeded_table_well_formed | reflexivity].
Defined.

Lemma deleteItem_removes_one_row_witness :
  exists t',
    table_after (deleteItem 2) seeded_world = Some t' /\
    sqlite_sequence t' = sqlite_sequence seeded_table /\
    ((forall r, In r (rows seeded_table) -> id r <> 2) -> t' = seeded_table) /\
    (forall r, In r (rows seeded_table) -> id r = 2 ->
       exists l1 l2, rows seeded_table = l1 ++ r :: l2 /\ rows t' = l1 ++ l2).
Proof.
  apply (deleteItem_removes_one_row seeded_world seeded_table 2);
    [reflexivity | exact seeded_table_well_formed | reflexivity].
Defined.

Lemma samples_return_after_clearing_witness :
  result_of clear_and_start_again seeded_world = Returned true /\
  table_after clear_and_start_again seeded_world =
    Some (mkTable
            (sample_rows (Z.max (sqlite_sequence seeded_table) 0)
                         (clock seeded_world) (reads seeded_world))
            (Z.max (sqlite_sequence seeded_table) 0 + 3)).
Proof.
  apply (samples_return_after_clearing seeded_world seeded_table);
    [reflexivity | reflexivity | reflexivity | vm_compute; discriminate].
Defined.

(** The run behind the witness above: the samples are back, as rows 4 to 6. *)
Example clear_and_start_again_run :
  table_after clear_and_start_again seeded_world =
  Some (mkTable [ mkItem 4 "Sữa" 2 "Đồ uống" 0 1003;
                  mkItem 5 "Trứng" 10 "Thực phẩm tươi sống" 0 1004;
                  mkItem 6 "Bánh mì" 1 "Thực phẩm khô" 0 1005 ] 6).
Proof. reflexivity. Qed.

Lemma new_item_listed_first_witness :
  exists l,
    result_of (add_then_list "Milk" 2 "Drinks") seeded_world =
      Returned (mkItem (Sqlite.largest_rowid seeded_table + 1) "Milk" 2 "Drinks" 0
                       (clock seeded_world (reads seeded_world))
                :: l) /\
    Permutation (rows seeded_table) l /\
    StronglySorted newest_first l.
Proof.
  apply (new_item_listed_first seeded_world seeded_table "Milk" 2 "Drinks");
    [reflexivity | reflexivity | reflexivity | vm_compute; reflexivity |].
  intros r Hr. simpl in Hr. destruct Hr as [<-|[<-|[<-|[]]]]; reflexivity.
Defined.

Lemma screens_store_clean_rows_witness :
  form_clean (table_after (session screen_session) (fresh_world [])) /\
  (forall t r,
     table_after (session screen_session) (fresh_world []) = Some t ->
     In r (rows t) ->
     name r <> EmptyString /\ quantity r <> 0 /\
     JS.strip_space (name r) = None /\
     (forall p s, name r = (p ++ s)%string -> Spaces s -> s = EmptyString)).
Proof.
  apply (screens_store_clean_rows screen_session (fresh_world []));
    [repeat constructor | exact I].
Defined.

(** The run behind the witness above. *)
Example screen_session_run :
  table_after (session screen_session) (fresh_world []) =
  Some (mkTable [ mkItem 1 "Tea" (-3) "" 0 1000;
                  mkItem 2 "Trứng" 10 "Thực phẩm tươi sống" 0 1001;
                  mkItem 3 "Bánh mì" 1 "Thực phẩm khô" 0 1002;
                  mkItem 4 "Milk" 1 "Drinks" 1 1003 ] 4).
Proof. reflexivity. Qed.

Lemma quantity_round_trip_witness :
  JS.parseInt (Number_toString 123456789012345683968)
    = Some (JS.Finite 123456789012345683968) /\
  (123456789012345683968 <> 0 ->
   AddItemModal.quantityNum (Number_toString 123456789012345683968)
     = 123456789012345683968) /\
  (123456789012345683968 = 0 ->
   AddItemModal.quantityNum (Number_toString 123456789012345683968) = 1).
Proof.
  apply (quantity_round_trip 123456789012345683968); vm_compute; reflexivity.
Defined.

Lemma edit_without_change_witness :
  result_of (save (populate (Some (mkItem 2 "Trứng" 10 "Thực phẩm tươi sống" 0 1001)))
                  (Some (mkItem 2 "Trứng" 10 "Thực phẩm tươi sống" 0 1001)))
            seeded_world =
    Returned AddItemModal.ItemUpdated /\
  table_after (save (populate (Some (mkItem 2 "Trứng" 10 "Thực phẩm tươi sống" 0 1001)))
                    (Some (mkItem 2 "Trứng" 10 "Thực phẩm tươi sống" 0 1001)))
              seeded_world = Some seeded_table.
Proof.
  apply (edit_without_change seeded_world seeded_table
           (mkItem 2 "Trứng" 10 "Thực phẩm tươi sống" 0 1001) 10);
    [ reflexivity | reflexivity | reflexivity | exact seeded_table_well_formed
    | simpl; auto | repeat split; discriminate | reflexivity | reflexivity
    | vm_compute; reflexivity ].
Defined.

Lemma saving_a_deleted_item_reports_success_witness :
  result_of (AddItemModal.handleSave "Eggs" "12" "Fresh"
               (Some (mkItem 9 "Old" 1 "" 0 7))) seeded_world =
    Returned AddItemModal.ItemUpdated /\
  table_after (AddItemModal.handleSave "Eggs" "12" "Fresh"
                 (Some (mkItem 9 "Old" 1 "" 0 7))) seeded_world =
    Some seeded_table.
Proof.
  apply (saving_a_deleted_item_reports_success seeded_world seeded_table
           (mkItem 9 "Old" 1 "" 0 7) "Eggs" "12" "Fresh");
    [reflexivity | reflexivity | reflexivity | reflexivity |].
  intros r Hr. simpl in Hr. destruct Hr as [<-|[<-|[<-|[]]]]; discriminate.
Defined.

Lemma failed_open_by_platform_witness :
  initDatabase (fresh_world [true]) =
    (Returned false, after_failed_open [] (fresh_world [true])) /\
  getAllItems (fresh_world [true]) =
    (Returned [], after_failed_open [] (fresh_world [true])) /\
  addItem "Milk" 2 "Drinks" (fresh_world [true]) =
    (Returned None, after_failed_open [] (fresh_world [true])) /\
  updateItem 1 "Milk" 2 "Drinks" (fresh_world [true]) =
    (Returned false, after_failed_open [] (fresh_world [true])) /\
  toggleBoughtStatus 1 1 (fresh_world [true]) =
    (Returned false, after_failed_open [] (fresh_world [true])) /\
  deleteItem 1 (fresh_world [true]) =
    (Returned false, after_failed_open [] (fresh_world [true])) /\
  deleteAllBoughtItems (fresh_world [true]) =
    (Returned false, after_failed_open [] (fresh_world [true])) /\
  clearAllItems (fresh_world [true]) =
    (Returned false, after_failed_open [] (fresh_world [true])) /\
  seedSampleData (fresh_world [true]) =
    (Returned tt, after_failed_open [] (fresh_world [true])) /\
  (web (fresh_world [true]) = true ->
   after_failed_open [] (fresh_world [true]) = set_faults [] (fresh_world [true])) /\
  (web (fresh_world [true]) = false ->
   open_failed (after_failed_open [] (fresh_world [true])) = true).
Proof.
  apply (failed_open_by_platform (fresh_world [true]) [] 1 "Milk" 2 "Drinks" 1);
    reflexivity.
Defined.

(** On the web the call after a failed opening opens the database. *)
Example open_retried_on_web :
  initDatabase (fresh_world_on true [true]) =
    (Returned false, fresh_world_on true []) /\
  result_of (and_then initDatabase initDatabase) (fresh_world_on true [true]) =
    Returned true.
Proof. split; reflexivity. Qed.

(** Elsewhere it does not: the second initDatabase returns false, and so
    does every later one, while the fault that is still scheduled is
    never met; a listing made then is empty. *)
Example open_not_retried :
  initDatabase (fresh_world [true; true]) =
    (Returned false,
     mkWorld false false (Some (RejectedWith OpenFailed)) None [true]
             (clock (fresh_world [])) 0) /\
  and_then initDatabase initDatabase (fresh_world [true; true]) =
    (Returned false,
     mkWorld false false (Some (RejectedWith OpenFailed)) None [true]
             (clock (fresh_world [])) 0) /\
  result_of (and_then initDatabase (and_then initDatabase initDatabase))
            (fresh_world [true]) = Returned false /\
  result_of (and_then initDatabase scenario) (fresh_world [true]) =
    Returned ([], [], []).
Proof. repeat split; reflexivity. Qed.

Lemma failed_open_is_remembered_witness :
  initDatabase (world_after initDatabase (fresh_world [true])) =
    (Returned false, world_after initDatabase (fresh_world [true])) /\
  getAllItems (world_after initDatabase (fresh_world [true])) =
    (Returned [], world_after initDatabase (fresh_world [true])) /\
  addItem "Milk" 2 "Drinks" (world_after initDatabase (fresh_world [true])) =
    (Returned None, world_after initDatabase (fresh_world [true])) /\
  updateItem 1 "Milk" 2 "Drinks" (world_after initDatabase (fresh_world [true])) =
    (Returned false, world_after initDatabase (fresh_world [true])) /\
  toggleBoughtStatus 1 1 (world_after initDatabase (fresh_world [true])) =
    (Returned false, world_after initDatabase (fresh_world [true])) /\
  deleteItem 1 (world_after initDatabase (fresh_world [true])) =
    (Returned false, world_after initDatabase (fresh_world [true])) /\
  deleteAllBoughtItems (world_after initDatabase (fresh_world [true])) =
    (Returned false, world_after initDatabase (fresh_world [true])) /\
  clearAllItems (world_after initDatabase (fresh_world [true])) =
    (Returned false, world_after initDatabase (fresh_world [true])) /\
  seedSampleData (world_after initDatabase (fresh_world [true])) =
    (Returned tt, world_after initDatabase (fresh_world [true])) /\
  session busy_session (world_after initDatabase (fresh_world [true])) =
    (Returned tt, world_after initDatabase (fresh_world [true])) /\
  open_failed (process_start (world_after initDatabase (fresh_world [true]))) = false.
Proof.
  apply (failed_open_is_remembered (world_after initDatabase (fresh_world [true]))
           busy_session 1 "Milk" 2 "Drinks" 1).
  reflexivity.
Defined.

Lemma lazy_accessor_agrees_with_eager_witness :
  getAllItems seeded_world = Eager.getAllItems seeded_world /\
  addItem "Milk" 2 "Drinks" seeded_world =
    Eager.addItem "Milk" 2 "Drinks" seeded_world /\
  updateItem 2 "Milk" 2 "Drinks" seeded_world =
    Eager.updateItem 2 "Milk" 2 "Drinks" seeded_world /\
  toggleBoughtStatus 2 1 seeded_world = Eager.toggleBoughtStatus 2 1 seeded_world /\
  deleteItem 2 seeded_world = Eager.deleteItem 2 seeded_world /\
  deleteAllBoughtItems seeded_world = Eager.deleteAllBoughtItems seeded_world /\
  clearAllItems seeded_world = Eager.clearAllItems seeded_world /\
  initDatabase seeded_world =
    (let* created := Eager.initDatabase in
     if created then let* _ := seedSampleData in ret true else ret false)
      seeded_world.
Proof.
  apply (lazy_accessor_agrees_with_eager seeded_world 2 "Milk" 2 "Drinks" 1).
  reflexivity.
Defined.

Lemma later_write_wins_witness :
  table_after (and_then (updateItem 2 "Eggs" 12 "Fresh")
                        (updateItem 2 "Tea" 1 "")) seeded_world =
    table_after (updateItem 2 "Tea" 1 "") seeded_world /\
  table_after (and_then (toggleBoughtStatus 2 1) (toggleBoughtStatus 2 0))
              seeded_world =
    table_after (toggleBoughtStatus 2 0) seeded_world /\
  table_after (and_then (updateItem 2 "Eggs" 12 "Fresh") (toggleBoughtStatus 3 0))
              seeded_world =
    table_after (and_then (toggleBoughtStatus 3 0) (updateItem 2 "Eggs" 12 "Fresh"))
                seeded_world /\
  table_after (and_then deleteAllBoughtItems deleteAllBoughtItems) seeded_world =
    table_after deleteAllBoughtItems seeded_world.
Proof.
  apply (later_write_wins seeded_world seeded_table 2 3 "Eggs" "Tea" 12 1
           "Fresh" "" 1 0); reflexivity.
Defined.

Lemma sync_initDatabase_agrees_with_lazy_witness :
  result_of Sync.initDatabase (fresh_world [false; false; false; true]) =
    result_of initDatabase (fresh_world [false; false; false; true]) /\
  table_after Sync.initDatabase (fresh_world [false; false; false; true]) =
    table_after initDatabase (fresh_world [false; false; false; true]) /\
  db (world_after Sync.initDatabase (fresh_world [false; false; false; true])) =
    db (world_after initDatabase (fresh_world [false; false; false; true])).
Proof.
  apply (sync_initDatabase_agrees_with_lazy (fresh_world [false; false; false; true])).
  right. reflexivity.
Defined.
